(** * LMPOTF: on-the-fly training controller (flare/learners/lmpotf.py)

    A shallow embedding of [transform_stress], [LMPOTF.__init__],
    [LMPOTF.save], [LMPOTF.run_dft] and [LMPOTF.step], followed by the
    properties of the controller that the specification states.

    Conventions of the embedding.
    - numpy float64 values are IEEE binary64 numbers, taken from the
      Standard Library's executable specification [SpecFloat]
      (precision 53, emax 1024); Python integers are [Z].
    - A Python exception is a value of [exn]; a call that may raise
      returns a [result].  The type covers the instances of Python's
      [Exception] class, which is what the handler of [step] catches.
    - The collaborators the controller talks to (LAMMPS, the ASE
      calculator, the C++ sparse GP, wandb, the user callbacks) are not
      part of the source.  Every call into them is recorded as an
      [Event], and its outcome (a value or an exception) is read from a
      [World] record, one field per call site, one record per step.
    - The collaborators do not assign to the attributes of [self]:
      [post_dft_callback] and [hyperparameter_optimization] receive
      the controller and are taken to read it only.
    - [self] is mutated in place by the Python code and keeps its
      mutations when an exception propagates; the monad [M] therefore
      returns the store also on the exceptional path. *)

From Stdlib Require Import String ZArith List Bool Lia SpecFloat.
From Stdlib Require Import Sorted.
Import ListNotations.
Local Open Scope Z_scope.

(** ** binary64 arithmetic *)

Module Float64.

Definition prec : Z := 53.
Definition emax : Z := 1024.

Definition float := spec_float.

Definition abs : float -> float := SFabs.
Definition opp : float -> float := SFopp.
Definition sqrt : float -> float := SFsqrt prec emax.
Definition div : float -> float -> float := SFdiv prec emax.
Definition sub : float -> float -> float := SFsub prec emax.
Definition add : float -> float -> float := SFadd prec emax.

(** [x > y] and [x <= y] as numpy evaluates them: false when either
    side is NaN. *)
Definition gtb (x y : float) : bool := SFltb y x.
Definition leb (x y : float) : bool := SFleb x y.

Definition is_nan (x : float) : bool :=
  match x with S754_nan => true | _ => false end.

(** Conversion of a Python int to float64 (round to nearest even). *)
Definition of_Z (n : Z) : float := binary_normalize prec emax n 0 false.

Definition zero : float := S754_zero false.

(** The default thresholds of [__init__]: the doubles closest to
    0.005 and 0.0025. *)
Definition lit_0_005 : float := S754_finite false 5764607523034235 (-60).
Definition lit_0_0025 : float := S754_finite false 5764607523034235 (-61).
Definition lit_0_01 : float := S754_finite false 5764607523034235 (-59).
Definition lit_0_001 : float := S754_finite false 4611686018427388 (-62).

End Float64.

Import Float64.

(** ** Exceptions and fallible results *)

Inductive exn : Type :=
| IndexError
| ValueError
| AssertionError
| ExternalError (origin : string).

Inductive result (A : Type) : Type :=
| Ok (a : A)
| Raise (e : exn).

Arguments Ok {A} a.
Arguments Raise {A} e.

Definition result_map {A B} (f : A -> B) (r : result A) : result B :=
  match r with Ok a => Ok (f a) | Raise e => Raise e end.

Definition result_bind {A B} (r : result A) (f : A -> result B) : result B :=
  match r with Ok a => f a | Raise e => Raise e end.

Definition is_ok {A} (r : result A) : bool :=
  match r with Ok _ => true | Raise _ => false end.

(** ** The numpy operations the controller uses *)

Module Numpy.

(** [a[i]] on a one-dimensional array: a negative index counts from
    the end, an index outside [-len, len) raises IndexError. *)
Definition getitem {A} (a : list A) (i : Z) : result A :=
  let n := Z.of_nat (length a) in
  let j := if i <? 0 then i + n else i in
  if (0 <=? j) && (j <? n) then
    match nth_error a (Z.to_nat j) with
    | Some v => Ok v
    | None => Raise IndexError
    end
  else Raise IndexError.

(** [a[idx]] with an integer array [idx] (fancy indexing). *)
Fixpoint take {A} (a : list A) (idx : list Z) : result (list A) :=
  match idx with
  | [] => Ok []
  | i :: rest =>
      result_bind (getitem a i) (fun v =>
      result_map (cons v) (take a rest))
  end.

(** [a[lo:hi]] with Python's clamping of the two bounds. *)
Definition clamp (n i : Z) : Z :=
  if i <? 0 then Z.max (i + n) 0 else Z.min i n.

Definition slice {A} (a : list A) (lo hi : Z) : list A :=
  let n := Z.of_nat (length a) in
  let l := clamp n lo in
  let h := clamp n hi in
  firstn (Z.to_nat (h - l)) (skipn (Z.to_nat l) a).

(** [a[lo:]] *)
Definition slice_from {A} (a : list A) (lo : Z) : list A :=
  let n := Z.of_nat (length a) in
  skipn (Z.to_nat (clamp n lo)) a.

(** [a.reshape((-1, 3))]: the data stay in row-major order; numpy
    raises ValueError when the size is not a multiple of 3. *)
Definition reshape_rows3 (a : list float) : result (list float) :=
  if Z.of_nat (length a) mod 3 =? 0 then Ok a else Raise ValueError.

(** [np.amax(a)]: ValueError on an empty array; NaN propagates. *)
Definition max2 (x y : float) : float :=
  if is_nan x then x
  else if is_nan y then y
  else if gtb y x then y else x.

Definition amax (a : list float) : result float :=
  match a with
  | [] => Raise ValueError
  | x :: rest => Ok (fold_left max2 rest x)
  end.

(** Element-wise [np.abs(a)], [np.sqrt(a)], [a / s] and [a > t]. *)
Definition abs (a : list float) : list float := map Float64.abs a.
Definition sqrt (a : list float) : list float := map Float64.sqrt a.
Definition div_scalar (a : list float) (s : float) : list float :=
  map (fun v => Float64.div v s) a.
Definition gt_scalar (a : list float) (t : float) : list bool :=
  map (fun v => gtb v t) a.

(** [np.any(mask)] *)
Definition any (mask : list bool) : bool := existsb (fun b => b) mask.

(** [np.arange(n)] *)
Definition arange (n : Z) : list Z :=
  map Z.of_nat (seq 0 (Z.to_nat n)).

(** [a[mask]] with a boolean mask: IndexError when the mask does not
    have the length of [a]; otherwise the entries of [a] at the
    positions where the mask is true, in order. *)
Fixpoint select {A} (a : list A) (mask : list bool) : list A :=
  match a, mask with
  | v :: a', b :: mask' =>
      if b then v :: select a' mask' else select a' mask'
  | _, _ => []
  end.

Definition mask_index {A} (a : list A) (mask : list bool)
  : result (list A) :=
  if Nat.eqb (length a) (length mask) then Ok (select a mask)
  else Raise IndexError.

(** Entry [k] of a (1, 3) array broadcast against further rows. *)
Definition row_entry (a : list float) (k : nat) : float :=
  nth (Nat.modulo k 3) a S754_nan.

Fixpoint zip_sub (a b : list float) : list float :=
  match a, b with
  | x :: a', y :: b' => sub x y :: zip_sub a' b'
  | _, _ => []
  end.

(** [a - b] for two arrays of shapes (n, 3) and (m, 3), both given in
    row-major order: the shapes broadcast when [n = m] or one of them
    is 1, and numpy raises ValueError otherwise. *)
Definition sub_rows3 (a b : list float) : result (list float) :=
  let n := Nat.div (length a) 3 in
  let m := Nat.div (length b) 3 in
  if Nat.eqb n m then Ok (zip_sub a b)
  else if Nat.eqb n 1 then
    Ok (map (fun kb => sub (row_entry a (fst kb)) (snd kb))
            (combine (seq 0 (length b)) b))
  else if Nat.eqb m 1 then
    Ok (map (fun ka => sub (snd ka) (row_entry b (fst ka)))
            (combine (seq 0 (length a)) a))
  else Raise ValueError.

End Numpy.

(** ** transform_stress *)

(** A two-dimensional array, by rows. *)
Definition matrix := list (list float).

(** [m[(i, j)]] *)
Definition matrix_get (m : matrix) (i j : Z) : result float :=
  result_bind (Numpy.getitem m i) (fun row => Numpy.getitem row j).

Definition transform_stress (stress : matrix) : result (list float) :=
  result_bind (matrix_get stress 0 0) (fun s00 =>
  result_bind (matrix_get stress 0 1) (fun s01 =>
  result_bind (matrix_get stress 0 2) (fun s02 =>
  result_bind (matrix_get stress 1 1) (fun s11 =>
  result_bind (matrix_get stress 1 2) (fun s12 =>
  result_bind (matrix_get stress 2 2) (fun s22 =>
  Ok (map opp [s00; s01; s02; s11; s12; s22]))))))).

(** ** Data: structures, the sparse GP, the controller *)

(** The [Structure] object of the C++ extension: the configuration it
    is built from, the training labels [run_dft] attaches, and the
    prediction buffers the sparse GP fills in. *)
Record Structure : Type := mkStructure {
  s_cell : matrix;
  s_species : list Z;
  s_positions : list float;
  s_cutoff : float;
  s_descriptors : list string;
  forces : list float;
  energy : list float;
  stresses : list float;
  local_uncertainties : list (list float);
  mean_efs : list float;
  variance_efs : list float
}.

Definition new_Structure (cell : matrix) (species : list Z)
    (positions : list float) (cutoff : float) (descriptors : list string)
  : Structure :=
  mkStructure cell species positions cutoff descriptors [] [] [] [] [] [].

Definition set_forces (s : Structure) (v : list float) : Structure :=
  mkStructure (s_cell s) (s_species s) (s_positions s) (s_cutoff s)
    (s_descriptors s) v (energy s) (stresses s)
    (local_uncertainties s) (mean_efs s) (variance_efs s).

Definition set_energy (s : Structure) (v : list float) : Structure :=
  mkStructure (s_cell s) (s_species s) (s_positions s) (s_cutoff s)
    (s_descriptors s) (forces s) v (stresses s)
    (local_uncertainties s) (mean_efs s) (variance_efs s).

Definition set_stresses (s : Structure) (v : list float) : Structure :=
  mkStructure (s_cell s) (s_species s) (s_positions s) (s_cutoff s)
    (s_descriptors s) (forces s) (energy s) v
    (local_uncertainties s) (mean_efs s) (variance_efs s).

Definition set_local_uncertainties (s : Structure) (v : list (list float))
  : Structure :=
  mkStructure (s_cell s) (s_species s) (s_positions s) (s_cutoff s)
    (s_descriptors s) (forces s) (energy s) (stresses s)
    v (mean_efs s) (variance_efs s).

Definition set_efs (s : Structure) (m v : list float) : Structure :=
  mkStructure (s_cell s) (s_species s) (s_positions s) (s_cutoff s)
    (s_descriptors s) (forces s) (energy s) (stresses s)
    (local_uncertainties s) m v.

(** Which environments of a training structure were made sparse points. *)
Inductive EnvSelection : Type :=
| RandomEnvironments (n_added : list Z)
| SpecificEnvironments (atoms : list Z).

(** What the controller can observe of, and change in, the sparse GP.
    [qr_current] tells whether [update_matrices_QR] has run since the
    last addition of training data. *)
Record SparseGP : Type := mkSparseGP {
  hyperparameters : list float;
  training_structures : list Structure;
  sparse_environments : list (Structure * EnvSelection);
  qr_current : bool;
  log_marginal_likelihood : float;
  likelihood_gradient : list float
}.

(** The attributes of [self].  The calculator and the two callbacks
    ([post_dft_callback], [hyperparameter_optimization]) are opaque
    callables: what they do when called is part of the [World]. *)
Record LMPOTF : Type := mkLMPOTF {
  sparse_gp : SparseGP;
  descriptors : list string;
  rcut : float;
  type2number : list Z;
  ntypes : Z;
  energy_correction : list float;
  dft_call_threshold : float;
  dft_add_threshold : float;
  force_training : bool;
  energy_training : bool;
  stress_training : bool;
  dft_calls : Z;
  last_dft_call : Z;
  dft_xyz_fname : option (Z -> string);
  std_xyz_fname : option (Z -> string);
  model_fname : string;
  opt_bounds : option (list float);
  opt_method : option string;
  opt_iterations : option Z;
  wandb : bool
}.

Definition set_sparse_gp (o : LMPOTF) (g : SparseGP) : LMPOTF :=
  mkLMPOTF g (descriptors o) (rcut o) (type2number o) (ntypes o)
    (energy_correction o) (dft_call_threshold o) (dft_add_threshold o)
    (force_training o) (energy_training o) (stress_training o)
    (dft_calls o) (last_dft_call o) (dft_xyz_fname o) (std_xyz_fname o)
    (model_fname o) (opt_bounds o) (opt_method o) (opt_iterations o)
    (wandb o).

Definition set_dft_calls (o : LMPOTF) (n : Z) : LMPOTF :=
  mkLMPOTF (sparse_gp o) (descriptors o) (rcut o) (type2number o) (ntypes o)
    (energy_correction o) (dft_call_threshold o) (dft_add_threshold o)
    (force_training o) (energy_training o) (stress_training o)
    n (last_dft_call o) (dft_xyz_fname o) (std_xyz_fname o)
    (model_fname o) (opt_bounds o) (opt_method o) (opt_iterations o)
    (wandb o).

Definition set_last_dft_call (o : LMPOTF) (n : Z) : LMPOTF :=
  mkLMPOTF (sparse_gp o) (descriptors o) (rcut o) (type2number o) (ntypes o)
    (energy_correction o) (dft_call_threshold o) (dft_add_threshold o)
    (force_training o) (energy_training o) (stress_training o)
    (dft_calls o) n (dft_xyz_fname o) (std_xyz_fname o)
    (model_fname o) (opt_bounds o) (opt_method o) (opt_iterations o)
    (wandb o).

(** The file [write_mapping_coefficients] leaves behind: where it was
    written, the contributor tag and kernel index passed by [save], and
    the model the coefficients were computed from. *)
Record Checkpoint : Type := mkCheckpoint {
  ck_fname : string;
  ck_contributor : string;
  ck_kernel_index : Z;
  ck_model : SparseGP
}.

(** Everything a step can change: the controller object (with the GP it
    owns) and the model file on disk. *)
Record Store : Type := mkStore {
  self : LMPOTF;
  model_file : option Checkpoint
}.

(** ** __init__ *)

(** [np.atleast_1d] on an argument that is a scalar or a list. *)
Definition atleast_1d {A} (v : A + list A) : list A :=
  match v with inl a => [a] | inr l => l end.

(** [logging_setup] is the outcome of [logging.basicConfig], which
    opens the log file. *)
Definition LMPOTF_init
    (sparse_gp : SparseGP) (descriptors : string + list string)
    (rcut : float) (type2number : Z + list Z)
    (energy_correction : float + list float)
    (force_training energy_training stress_training : bool)
    (dft_call_threshold dft_add_threshold : float)
    (dft_xyz_fname std_xyz_fname : option (Z -> string))
    (model_fname : string)
    (opt_bounds : option (list float)) (opt_method : option string)
    (opt_iterations : option Z) (wandb : bool)
    (logging_setup : result unit)
  : result LMPOTF :=
  let descriptors := atleast_1d descriptors in
  let type2number := atleast_1d type2number in
  let ntypes := Z.of_nat (length type2number) in
  let energy_correction := atleast_1d energy_correction in
  if Z.of_nat (length energy_correction) =? ntypes then
    result_map
      (fun _ =>
         mkLMPOTF sparse_gp descriptors rcut type2number ntypes
           energy_correction dft_call_threshold dft_add_threshold
           force_training energy_training stress_training
           0 (-100) dft_xyz_fname std_xyz_fname model_fname
           opt_bounds opt_method opt_iterations wandb)
      logging_setup
  else Raise AssertionError.

(** ** Events and the outside world *)

Inductive Metric : Type :=
| MFloat (v : float)
| MInt (n : Z)
| MHistogram (data : list float).

(** The records [step] writes to its logger. *)
Inductive LogRecord : Type :=
| LogInitialStep
| LogStep (step : Z)
| LogMaxUncertainty (v : float)
| LogMaxForceUncertainty (v : float)
| LogDftCall (n : Z)
| LogOptimizing
| LogLikelihood (before after : float)
| LogLikelihoodGradient (g : list float)
| LogHyperparameters (h : list float)
| LogQuantity (name : string) (v : Metric)
| LogException (msg : string) (err : exn).

(** Calls that leave the controller, in the order they are made. *)
Inductive Event : Type :=
| Log (r : LogRecord)
| LammpsGather
| StructureInit
| AtomsInit
| OracleEnergy
| OracleForces
| OracleStress
| XyzWrite (fname : string) (charges : option (list float))
| PostDftCallback (step : Z)
| PredictLocalUncertainties
| PredictDTC
| AddTrainingStructure (s : Structure)
| AddRandomEnvironments (s : Structure) (n_added : list Z)
| AddSpecificEnvironments (s : Structure) (atoms : list Z)
| UpdateMatricesQR
| WriteMappingCoefficients (fname contributor : string) (kernel_index : Z)
| HyperoptPredicate (step : Z)
| ComputeLikelihood
| OptimizeHyperparameters
| LammpsCommand (cmd : string)
| LammpsThermo (key : string)
| WandbHistogram (data : list float)
| WandbLog (metrics : list (string * Metric)) (step : Z).

(** What [step] gathers from LAMMPS before it branches (lines 141-152):
    the atom count, the positions (row-major, three per atom), the
    thermo step, the box and the per-atom types. *)
Record Snapshot : Type := mkSnapshot {
  snap_natoms : Z;
  snap_x : list float;
  snap_step : Z;
  snap_boxlo : float * float * float;
  snap_boxhi : float * float * float;
  snap_xy : float;
  snap_yz : float;
  snap_xz : float;
  snap_types : list Z
}.

(** The outcome of every external call one step can make. *)
Record World : Type := mkWorld {
  lmp_snapshot : result Snapshot;
  structure_init : result unit;
  std_xyz_dump : result unit;
  gp_local_uncertainties : result (list (list float));
  gp_predict_DTC : result (list float * list float);
  dft_frame_init : result unit;
  dft_potential_energy : result float;
  dft_forces : result (list float);
  dft_stress : result matrix;
  dft_xyz_dump : result unit;
  post_dft_callback : result unit;
  gp_add_training_structure : result unit;
  gp_add_random_environments : result unit;
  gp_add_specific_environments : result unit;
  gp_update_matrices_QR : result unit;
  gp_write_mapping_coefficients : result unit;
  hyperparameter_optimization : result bool;
  gp_compute_likelihood_stable : result (float * list float);
  optimize_hyperparameters : result (list float * float * list float);
  lmp_command : result unit;
  lmp_thermo_temp : result float;
  lmp_thermo_press : result float;
  lmp_thermo_pe : result float;
  lmp_thermo_vol : result float;
  wandb_histogram_stds : result unit;
  wandb_histogram_forces : result unit;
  wandb_histogram_errors : result unit;
  wandb_log_outcome : result unit
}.

(** ** The step monad

    A computation reads and changes the [Store], emits events, and
    either returns a value or raises.  The store and the events reached
    before an exception are kept: Python does not roll back [self]. *)

Definition M (A : Type) : Type := Store -> Store * list Event * result A.

Definition ret {A} (a : A) : M A := fun st => (st, [], Ok a).

Definition raise {A} (e : exn) : M A := fun st => (st, [], Raise e).

Definition bind {A B} (m : M A) (f : A -> M B) : M B :=
  fun st =>
    let '(st1, ev1, r) := m st in
    match r with
    | Ok a => let '(st2, ev2, r2) := f a st1 in (st2, ev1 ++ ev2, r2)
    | Raise e => (st1, ev1, Raise e)
    end.

(** [try: m  except Exception as err: handler err] *)
Definition try_except {A} (m : M A) (handler : exn -> M A) : M A :=
  fun st =>
    let '(st1, ev1, r) := m st in
    match r with
    | Ok a => (st1, ev1, Ok a)
    | Raise e => let '(st2, ev2, r2) := handler e st1 in (st2, ev1 ++ ev2, r2)
    end.

Declare Scope step_scope.
Delimit Scope step_scope with step.
Notation "x <- m ;; k" := (bind m (fun x => k))
  (at level 61, m at next level, right associativity) : step_scope.
Notation "' pat <- m ;; k" := (bind m (fun x => match x with pat => k end))
  (at level 61, pat pattern, m at next level, right associativity)
  : step_scope.
Notation "m ;; k" := (bind m (fun _ => k))
  (at level 61, right associativity) : step_scope.
Local Open Scope step_scope.

(** A pure numpy operation that may raise. *)
Definition lift {A} (r : result A) : M A := fun st => (st, [], r).

Definition get_self : M LMPOTF := fun st => (st, [], Ok (self st)).

Definition modify_self (f : LMPOTF -> LMPOTF) : M unit :=
  fun st => (mkStore (f (self st)) (model_file st), [], Ok tt).

Definition modify_gp (f : SparseGP -> SparseGP) : M unit :=
  modify_self (fun o => set_sparse_gp o (f (sparse_gp o))).

Definition write_model_file (c : Checkpoint) : M unit :=
  fun st => (mkStore (self st) (Some c), [], Ok tt).

(** A call that leaves the controller: the event is recorded, then the
    world decides how the call ends. *)
Definition call {A} (ev : Event) (outcome : result A) : M A :=
  fun st => (st, [ev], outcome).

Definition log (r : LogRecord) : M unit := call (Log r) (Ok tt).

(** ** The sparse-GP methods that change the model

    When the call raises, the observable part of the model is left as
    it was. *)

Definition add_training_structure (w : World) (s : Structure) : M unit :=
  call (AddTrainingStructure s) (gp_add_training_structure w) ;;
  modify_gp (fun g =>
    mkSparseGP (hyperparameters g) (training_structures g ++ [s])
      (sparse_environments g) false
      (log_marginal_likelihood g) (likelihood_gradient g)).

Definition add_environments (g : SparseGP) (s : Structure)
    (sel : EnvSelection) : SparseGP :=
  mkSparseGP (hyperparameters g) (training_structures g)
    (sparse_environments g ++ [(s, sel)]) false
    (log_marginal_likelihood g) (likelihood_gradient g).

Definition add_random_environments (w : World) (s : Structure)
    (n_added : list Z) : M unit :=
  call (AddRandomEnvironments s n_added) (gp_add_random_environments w) ;;
  modify_gp (fun g => add_environments g s (RandomEnvironments n_added)).

Definition add_specific_environments (w : World) (s : Structure)
    (atoms : list Z) : M unit :=
  call (AddSpecificEnvironments s atoms) (gp_add_specific_environments w) ;;
  modify_gp (fun g => add_environments g s (SpecificEnvironments atoms)).

Definition update_matrices_QR (w : World) : M unit :=
  call UpdateMatricesQR (gp_update_matrices_QR w) ;;
  modify_gp (fun g =>
    mkSparseGP (hyperparameters g) (training_structures g)
      (sparse_environments g) true
      (log_marginal_likelihood g) (likelihood_gradient g)).

Definition compute_likelihood_stable (w : World) : M unit :=
  lg <- call ComputeLikelihood (gp_compute_likelihood_stable w) ;;
  modify_gp (fun g =>
    mkSparseGP (hyperparameters g) (training_structures g)
      (sparse_environments g) (qr_current g) (fst lg) (snd lg)).

Definition run_optimize_hyperparameters (w : World) : M unit :=
  hlg <- call OptimizeHyperparameters (optimize_hyperparameters w) ;;
  modify_gp (fun g =>
    mkSparseGP (fst (fst hlg)) (training_structures g)
      (sparse_environments g) (qr_current g) (snd (fst hlg)) (snd hlg)).

(** ** save *)

Definition save (w : World) (fname : string) : M unit :=
  call (WriteMappingCoefficients fname "LMPOTF" 0)
       (gp_write_mapping_coefficients w) ;;
  o <- get_self ;;
  write_model_file (mkCheckpoint fname "LMPOTF" 0 (sparse_gp o)).

(** ** run_dft and step *)

Section Controller.

(** [np.sum] and [np.mean] over a float64 array.  numpy does not fix
    the order in which it adds the entries, so the two reductions are
    left open; their values only reach the stored energy and the
    logged error measures. *)
Variable np_sum : list float -> float.
Variable np_mean : list float -> float.

(** [types - 1] *)
Definition minus_one (types : list Z) : list Z :=
  map (fun t => t - 1) types.

(** [run_dft] assigns to attributes of its [structure] argument; the
    embedding returns the structure as assigned to. *)
Definition run_dft (w : World) (cell : matrix) (x : list float)
    (types : list Z) (step : Z) (structure : Structure)
  : M (float * list float * Structure) :=
  o <- get_self ;;
  atomic_numbers <- lift (Numpy.take (type2number o) (minus_one types)) ;;
  call AtomsInit (dft_frame_init w) ;;
  pe <- call OracleEnergy (dft_potential_energy w) ;;
  corr <- lift (Numpy.take (energy_correction o) (minus_one types)) ;;
  let pe := sub pe (np_sum corr) in
  F <- call OracleForces (dft_forces w) ;;
  stress <- call OracleStress (dft_stress w) ;;
  match dft_xyz_fname o with
  | Some fname => call (XyzWrite (fname step) None) (dft_xyz_dump w)
  | None => ret tt
  end ;;
  let structure :=
    if force_training o then set_forces structure F else structure in
  let structure :=
    if energy_training o then set_energy structure [pe] else structure in
  structure <-
    (if stress_training o then
       s <- lift (transform_stress stress) ;;
       ret (set_stresses structure s)
     else ret structure) ;;
  modify_self (fun o => set_dft_calls o (dft_calls o + 1)) ;;
  modify_self (fun o => set_last_dft_call o step) ;;
  call (PostDftCallback step) (post_dft_callback w) ;;
  ret (pe, F, structure).

(** [np.diag(boxhi - boxlo)] with the three tilt factors written
    below the diagonal. *)
Definition make_cell (boxlo boxhi : float * float * float)
    (xy yz xz : float) : matrix :=
  let '(lx, ly, lz) := boxlo in
  let '(hx, hy, hz) := boxhi in
  [ [sub hx lx; zero; zero];
    [xy; sub hy ly; zero];
    [xz; yz; sub hz lz] ].

(** Lines 155-160: the first call. *)
Definition bootstrap (w : World) (snap : Snapshot) (cell : matrix)
    (structure : Structure) : M unit :=
  o <- get_self ;;
  log LogInitialStep ;;
  ' (pe, F, structure) <-
    run_dft w cell (snap_x snap) (snap_types snap) (snap_step snap)
      structure ;;
  add_training_structure w structure ;;
  add_random_environments w structure [16] ;;
  update_matrices_QR w ;;
  save w (model_fname o).

(** Line 166: [np.sqrt(np.abs(variances)) / sigma]. *)
Definition uncertainty_scores (variances : list float) (sigma : float)
  : list float :=
  Numpy.div_scalar (Numpy.sqrt (Numpy.abs variances)) sigma.

(** Lines 163-166: [stds], and the structure with the predicted
    variances filled in. *)
Definition predict_scores (w : World) (structure : Structure)
  : M (list float * Structure) :=
  o <- get_self ;;
  sigma <- lift (Numpy.getitem (hyperparameters (sparse_gp o)) 0) ;;
  lu <- call PredictLocalUncertainties (gp_local_uncertainties w) ;;
  let structure := set_local_uncertainties structure lu in
  variances <- lift (Numpy.getitem (local_uncertainties structure) 0) ;;
  ret (uncertainty_scores variances sigma, structure).

(** Lines 199-218: optional hyperparameter optimization. *)
Definition maybe_optimize (w : World) (step : Z) : M unit :=
  wanted <- call (HyperoptPredicate step) (hyperparameter_optimization w) ;;
  if wanted : bool then
    log LogOptimizing ;;
    compute_likelihood_stable w ;;
    o1 <- get_self ;;
    let likelihood_before := log_marginal_likelihood (sparse_gp o1) in
    run_optimize_hyperparameters w ;;
    o2 <- get_self ;;
    let likelihood_after := log_marginal_likelihood (sparse_gp o2) in
    log (LogLikelihood likelihood_before likelihood_after) ;;
    log (LogLikelihoodGradient (likelihood_gradient (sparse_gp o2))) ;;
    log (LogHyperparameters (hyperparameters (sparse_gp o2)))
  else ret tt.

(** What the query branch hands on to the telemetry block. *)
Record QueryResult : Type := mkQueryResult {
  q_wandb_log : list (string * Metric);
  q_F : list float;
  q_predF : list float;
  q_Fstd : list float
}.

(** Lines 180-225: the branch taken when [call_dft] is true. *)
Definition query (w : World) (snap : Snapshot) (cell : matrix)
    (structure : Structure) (stds : list float)
    (wandb_log : list (string * Metric)) : M QueryResult :=
  let natoms := snap_natoms snap in
  let step := snap_step snap in
  efs <- call PredictDTC (gp_predict_DTC w) ;;
  let structure := set_efs structure (fst efs) (snd efs) in
  predE <- lift (Numpy.getitem (mean_efs structure) 0) ;;
  predF <- lift (Numpy.reshape_rows3
                   (Numpy.slice (mean_efs structure) 1 (-6))) ;;
  let predS := Numpy.slice_from (mean_efs structure) (-6) in
  Fstd <- lift (Numpy.reshape_rows3
                  (Numpy.sqrt (Numpy.abs
                     (Numpy.slice (variance_efs structure) 1 (-6))))) ;;
  var0 <- lift (Numpy.getitem (variance_efs structure) 0) ;;
  let Estd := sqrt (abs var0) in
  let Sstd :=
    Numpy.sqrt (Numpy.abs (Numpy.slice_from (variance_efs structure) (-6))) in
  max_F <- lift (Numpy.amax Fstd) ;;
  let wandb_log := wandb_log ++ [("max_F_uncertainty"%string, MFloat max_F)] in
  log (LogMaxForceUncertainty max_F) ;;
  o <- get_self ;;
  log (LogDftCall (dft_calls o)) ;;
  ' (pe, F, structure) <-
    run_dft w cell (snap_x snap) (snap_types snap) step structure ;;
  atoms_to_be_added <-
    lift (Numpy.mask_index (Numpy.arange natoms)
            (Numpy.gt_scalar stds (dft_add_threshold o))) ;;
  add_training_structure w structure ;;
  add_specific_environments w structure atoms_to_be_added ;;
  update_matrices_QR w ;;
  maybe_optimize w step ;;
  save w (model_fname o) ;;
  call (LammpsCommand ("pair_coeff * * " ++ model_fname o)%string)
       (lmp_command w) ;;
  diff <- lift (Numpy.sub_rows3 F predF) ;;
  let Fmae := MFloat (np_mean (Numpy.abs diff)) in
  let Emae := MFloat (div (abs (sub pe predE)) (of_Z natoms)) in
  let n_added := MInt (Z.of_nat (length atoms_to_be_added)) in
  let wandb_log :=
    wandb_log ++ [("Fmae"%string, Fmae); ("Emae"%string, Emae);
                  ("n_added"%string, n_added)] in
  log (LogQuantity "n_added" n_added) ;;
  log (LogQuantity "Fmae" Fmae) ;;
  log (LogQuantity "Emae" Emae) ;;
  ret (mkQueryResult wandb_log F predF Fstd).

(** Lines 227-238: the wandb block. *)
Definition telemetry (w : World) (step : Z) (stds : list float)
    (wandb_log : list (string * Metric)) (q : option QueryResult)
  : M unit :=
  call (WandbHistogram stds) (wandb_histogram_stds w) ;;
  let wandb_log := wandb_log ++ [("uncertainties"%string, MHistogram stds)] in
  temp <- call (LammpsThermo "temp") (lmp_thermo_temp w) ;;
  press <- call (LammpsThermo "press") (lmp_thermo_press w) ;;
  pe <- call (LammpsThermo "pe") (lmp_thermo_pe w) ;;
  vol <- call (LammpsThermo "vol") (lmp_thermo_vol w) ;;
  let wandb_log :=
    wandb_log ++ [("Temp"%string, MFloat temp); ("Press"%string, MFloat press);
                  ("PotEng"%string, MFloat pe); ("Vol"%string, MFloat vol)] in
  wandb_log <-
    match q with
    | Some q =>
        call (WandbHistogram (q_Fstd q)) (wandb_histogram_forces w) ;;
        diff <- lift (Numpy.sub_rows3 (q_F q) (q_predF q)) ;;
        call (WandbHistogram (Numpy.abs diff)) (wandb_histogram_errors w) ;;
        ret (wandb_log ++
             [("Funcertainties"%string, MHistogram (q_Fstd q));
              ("Ferror"%string, MHistogram (Numpy.abs diff))])
    | None => ret wandb_log
    end ;;
  call (WandbLog wandb_log step) (wandb_log_outcome w).

(** Lines 162-238: every call after the first. *)
Definition steady (w : World) (snap : Snapshot) (cell : matrix)
    (structure : Structure) : M unit :=
  let step := snap_step snap in
  o <- get_self ;;
  log (LogStep step) ;;
  ' (stds, structure) <- predict_scores w structure ;;
  match std_xyz_fname o with
  | Some fname =>
      numbers <- lift (Numpy.take (type2number o)
                         (minus_one (snap_types snap))) ;;
      call (XyzWrite (fname step) (Some stds)) (std_xyz_dump w)
  | None => ret tt
  end ;;
  max_u <- lift (Numpy.amax stds) ;;
  let wandb_log := [("max_uncertainty"%string, MFloat max_u)] in
  log (LogMaxUncertainty max_u) ;;
  let call_dft := Numpy.any (Numpy.gt_scalar stds (dft_call_threshold o)) in
  q <- (if call_dft then
          q <- query w snap cell structure stds wandb_log ;; ret (Some q)
        else ret None) ;;
  if wandb o then
    telemetry w step stds
      match q with Some q => q_wandb_log q | None => wandb_log end q
  else ret tt.

(** Lines 141-238: the body of the [try]. *)
Definition step_body (w : World) : M unit :=
  snap <- call LammpsGather (lmp_snapshot w) ;;
  let cell :=
    make_cell (snap_boxlo snap) (snap_boxhi snap)
      (snap_xy snap) (snap_yz snap) (snap_xz snap) in
  o <- get_self ;;
  structure <-
    call StructureInit
      (result_map
         (fun _ => new_Structure cell (minus_one (snap_types snap))
                     (snap_x snap) (rcut o) (descriptors o))
         (structure_init w)) ;;
  if dft_calls o =? 0 then bootstrap w snap cell structure
  else steady w snap cell structure.

(** [step]: the body, and the handler that logs and re-raises. *)
Definition step (w : World) : M unit :=
  try_except (step_body w)
    (fun err => log (LogException "LMPOTF ERROR" err) ;; raise err).

(** A run: LAMMPS calls [step] once per time step; a step that raises
    leaves the store as it was when the exception left it. *)
Definition run_steps (ws : list World) (st : Store) : Store :=
  fold_left (fun st w => fst (fst (step w st))) ws st.

End Controller.

(** ** Observing a run *)

Definition store_of {A} (out : Store * list Event * result A) : Store :=
  fst (fst out).

Definition events_of {A} (out : Store * list Event * result A)
  : list Event :=
  snd (fst out).

Definition result_of {A} (out : Store * list Event * result A) : result A :=
  snd out.

(** The score of one atom, as the specification writes it. *)
Definition score (variance sigma : float) : float :=
  div (sqrt (abs variance)) sigma.

(** The scores a step computes when [dft_calls] is not 0, read off the
    store and the world: [sigma] is [hyperparameters[0]], the variances
    are [local_uncertainties[0]].  [None] when one of the two lookups
    raises. *)
Definition scores_at (w : World) (st : Store) : option (list float) :=
  match Numpy.getitem (hyperparameters (sparse_gp (self st))) 0,
        gp_local_uncertainties w with
  | Ok sigma, Ok lu =>
      match Numpy.getitem lu 0 with
      | Ok variances => Some (map (fun v => score v sigma) variances)
      | Raise _ => None
      end
  | _, _ => None
  end.

(** Events that only report: log records, reads of the simulation and
    of the model's predictions, diagnostic dumps and telemetry. *)
Definition diagnostic (ev : Event) : bool :=
  match ev with
  | Log _ | LammpsGather | StructureInit | PredictLocalUncertainties
  | XyzWrite _ _ | LammpsThermo _ | WandbHistogram _ | WandbLog _ _ => true
  | _ => false
  end.

Definition is_oracle_call (ev : Event) : bool :=
  match ev with OracleEnergy => true | _ => false end.

Definition is_post_dft_callback (ev : Event) : bool :=
  match ev with PostDftCallback _ => true | _ => false end.

Definition is_refit (ev : Event) : bool :=
  match ev with
  | AddTrainingStructure _ | AddRandomEnvironments _ _
  | AddSpecificEnvironments _ _ | UpdateMatricesQR => true
  | _ => false
  end.

(** The order on stores that a run respects. *)
Definition dft_calls_le (st st' : Store) : Prop :=
  dft_calls (self st) <= dft_calls (self st').

(** Which calls a list of events contains. *)
Definition invokes_oracle (evs : list Event) : bool :=
  existsb is_oracle_call evs.

Definition commits_call (evs : list Event) : bool :=
  existsb is_post_dft_callback evs.

Definition attempts_refit (evs : list Event) : bool :=
  existsb is_refit evs.

Definition evaluates_uncertainty (evs : list Event) : bool :=
  existsb (fun ev => match ev with
                     | PredictLocalUncertainties | PredictDTC => true
                     | _ => false
                     end) evs.

Definition enters_query (evs : list Event) : bool :=
  existsb (fun ev => match ev with PredictDTC => true | _ => false end) evs.

(** A computation respects [R] when the store it leaves is related to
    the store it started from, however it ends. *)
Definition preserves {A} (R : Store -> Store -> Prop) (m : M A) : Prop :=
  forall st, R st (store_of (m st)).

(** The events [run_dft] can emit, those of the optimization block and
    those of a step that does not query. *)
Definition oracle_family (ev : Event) : bool :=
  match ev with
  | AtomsInit | OracleEnergy | OracleForces | OracleStress
  | XyzWrite _ None | PostDftCallback _ => true
  | _ => false
  end.

Definition optimization_family (ev : Event) : bool :=
  match ev with
  | HyperoptPredicate _ | ComputeLikelihood | OptimizeHyperparameters
  | Log LogOptimizing | Log (LogLikelihood _ _)
  | Log (LogLikelihoodGradient _) | Log (LogHyperparameters _) => true
  | _ => false
  end.

(** The store after lines 268-269 of [run_dft]. *)
Definition record_call (st : Store) (step : Z) : Store :=
  mkStore
    (set_last_dft_call (set_dft_calls (self st) (dft_calls (self st) + 1)) step)
    (model_file st).

(** Both counters agree. *)
Definition same_counters (st st' : Store) : Prop :=
  dft_calls (self st') = dft_calls (self st) /\
  last_dft_call (self st') = last_dft_call (self st).

(** How many times the calculator is asked for the energy. *)
Definition oracle_calls (evs : list Event) : nat :=
  length (filter is_oracle_call evs).

(** The step got as far as line 177, the line before the decision. *)
Definition reaches_decision (evs : list Event) : bool :=
  existsb (fun ev => match ev with
                     | Log (LogMaxUncertainty _) => true
                     | _ => false
                     end) evs.

(** An order-preserving key for the floats that are not NaN. *)
Definition order_key (x : float) : Z * Z * Z :=
  match x with
  | S754_nan => (0, 0, 0)
  | S754_infinity true => (-2, 0, 0)
  | S754_finite true m e => (-1, - e, - Zpos m)
  | S754_zero _ => (0, 0, 0)
  | S754_finite false m e => (1, e, Zpos m)
  | S754_infinity false => (2, 0, 0)
  end.

Definition key_lt (a b : Z * Z * Z) : Prop :=
  let '(a1, a2, a3) := a in
  let '(b1, b2, b3) := b in
  a1 < b1 \/ (a1 = b1 /\ (a2 < b2 \/ (a2 = b2 /\ a3 < b3))).

(** ** Further observations *)

(** A two-dimensional array has rows of one length. *)
Definition rectangular (m : matrix) (columns : nat) : Prop :=
  forall row, In row m -> length row = columns.

(** Everything [run_dft] does before line 268 succeeds: the two type
    lookups, the frame, the three calculator calls, the dump when one
    is configured, and the transformation of the stress when stresses
    are trained on. *)
Definition oracle_completes (w : World) (o : LMPOTF) (types : list Z)
  : bool :=
  is_ok (Numpy.take (type2number o) (minus_one types))
  && is_ok (dft_frame_init w)
  && is_ok (dft_potential_energy w)
  && is_ok (Numpy.take (energy_correction o) (minus_one types))
  && is_ok (dft_forces w)
  && is_ok (dft_stress w)
  && match dft_xyz_fname o with
     | Some _ => is_ok (dft_xyz_dump w)
     | None => true
     end
  && (if stress_training o then
        match dft_stress w with
        | Ok stress => is_ok (transform_stress stress)
        | Raise _ => false
        end
      else true).

(** How many entries of a mask are set. *)
Definition count_true (mask : list bool) : nat :=
  length (filter (fun b => b) mask).

(** The wandb block and the thermo reads it makes. *)
Definition is_telemetry (ev : Event) : bool :=
  match ev with
  | LammpsThermo _ | WandbHistogram _ | WandbLog _ _ => true
  | _ => false
  end.

(** What holds of each call a step makes, given the world and the
    store the step started from: where and with which arguments the
    call can occur. *)
Definition call_in_place (w : World) (st : Store) (ev : Event) : Prop :=
  match ev with
  | Log LogInitialStep => dft_calls (self st) = 0
  | Log (LogStep k) =>
      dft_calls (self st) <> 0 /\
      exists snap, lmp_snapshot w = Ok snap /\ k = snap_step snap
  | Log (LogDftCall n) =>
      dft_calls (self st) <> 0 /\ n = dft_calls (self st)
  | Log (LogQuantity name v) =>
      name = "n_added"%string ->
      exists snap stds atoms,
        lmp_snapshot w = Ok snap /\
        scores_at w st = Some stds /\
        Numpy.mask_index (Numpy.arange (snap_natoms snap))
          (Numpy.gt_scalar stds (dft_add_threshold (self st))) = Ok atoms /\
        v = MInt (Z.of_nat (length atoms))
  | AddTrainingStructure _ =>
      is_ok (post_dft_callback w) = true
  | AddRandomEnvironments _ n =>
      dft_calls (self st) = 0 /\ n = [16] /\
      is_ok (gp_add_training_structure w) = true
  | AddSpecificEnvironments _ _ =>
      dft_calls (self st) <> 0 /\
      is_ok (gp_add_training_structure w) = true
  | UpdateMatricesQR =>
      is_ok (gp_add_training_structure w) = true /\
      (if dft_calls (self st) =? 0
       then is_ok (gp_add_random_environments w) = true
       else is_ok (gp_add_specific_environments w) = true)
  | HyperoptPredicate _ | ComputeLikelihood | OptimizeHyperparameters =>
      dft_calls (self st) <> 0 /\
      is_ok (gp_update_matrices_QR w) = true
  | WriteMappingCoefficients fname contributor kernel_index =>
      fname = model_fname (self st) /\
      contributor = "LMPOTF"%string /\ kernel_index = 0 /\
      is_ok (gp_update_matrices_QR w) = true
  | LammpsCommand cmd =>
      cmd = ("pair_coeff * * " ++ model_fname (self st))%string /\
      dft_calls (self st) <> 0 /\
      is_ok (gp_write_mapping_coefficients w) = true
  | LammpsThermo _ | WandbHistogram _ | WandbLog _ _ =>
      wandb (self st) = true /\ dft_calls (self st) <> 0
  | PredictLocalUncertainties | PredictDTC =>
      dft_calls (self st) <> 0
  | _ => True
  end.

(** The attributes of the controller that are set once, in
    [__init__]. *)
Definition same_config (o o' : LMPOTF) : Prop :=
  descriptors o' = descriptors o /\ rcut o' = rcut o /\
  type2number o' = type2number o /\ ntypes o' = ntypes o /\
  energy_correction o' = energy_correction o /\
  dft_call_threshold o' = dft_call_threshold o /\
  dft_add_threshold o' = dft_add_threshold o /\
  force_training o' = force_training o /\
  energy_training o' = energy_training o /\
  stress_training o' = stress_training o /\
  dft_xyz_fname o' = dft_xyz_fname o /\
  std_xyz_fname o' = std_xyz_fname o /\
  model_fname o' = model_fname o /\
  opt_bounds o' = opt_bounds o /\ opt_method o' = opt_method o /\
  opt_iterations o' = opt_iterations o /\ wandb o' = wandb o.

(** A computation keeps the configuration when the store it leaves
    has the configuration of the store it started from. *)
Definition keeps_config (st st' : Store) : Prop :=
  same_config (self st) (self st').

(** ** A small scenario: two silicon atoms *)

Module Scenario.

Definition one : float := S754_finite false 4503599627370496 (-52).
(** -0.0001 and 0.000001: the first has score 0.01, the second 0.001
    when sigma is 1. *)
Definition var_high : float := S754_finite true 7378697629483821 (-66).
Definition var_low : float := S754_finite false 4722366482869645 (-72).

(** Sequential reductions, used to run the scenario. *)
Definition seq_sum (a : list float) : float := fold_left add a zero.
Definition seq_mean (a : list float) : float :=
  div (seq_sum a) (of_Z (Z.of_nat (length a))).

Definition gp0 : SparseGP := mkSparseGP [one; one] [] [] true zero [].

Definition controller (call_threshold add_threshold : float)
  : result LMPOTF :=
  LMPOTF_init gp0 (inl "B2"%string) (of_Z 5) (inl 14) (inl zero)
    true true true call_threshold add_threshold None None
    "otf.flare" None (Some "L-BFGS-B"%string) (Some 50) false (Ok tt).

Definition fresh : LMPOTF :=
  mkLMPOTF gp0 ["B2"%string] (of_Z 5) [14] 1 [zero]
    lit_0_005 lit_0_0025 true true true 0 (-100) None None
    "otf.flare" None (Some "L-BFGS-B"%string) (Some 50) false.

Definition store0 : Store := mkStore fresh None.
Definition store1 : Store := mkStore (set_dft_calls fresh 1) None.

Definition snapshot : Snapshot :=
  mkSnapshot 2 [zero; zero; zero; one; one; one] 7
    (zero, zero, zero) (of_Z 5, of_Z 5, of_Z 5) zero zero zero [1; 1].

Definition stress : matrix :=
  [ [of_Z 1; of_Z 2; of_Z 3];
    [of_Z 2; of_Z 4; of_Z 5];
    [of_Z 3; of_Z 5; of_Z 6] ].

Definition efs : list float := repeat lit_0_01 13.

(** A world in which every call succeeds unless stated otherwise. *)
Definition world (variances : list float) (energy : result float)
    (qr : result unit) : World :=
  mkWorld (Ok snapshot) (Ok tt) (Ok tt)
    (Ok [variances]) (Ok (efs, efs))
    (Ok tt) energy (Ok (repeat lit_0_01 6)) (Ok stress) (Ok tt) (Ok tt)
    (Ok tt) (Ok tt) (Ok tt) qr (Ok tt)
    (Ok false) (Ok (zero, [])) (Ok ([one; one], zero, []))
    (Ok tt) (Ok one) (Ok one) (Ok one) (Ok one)
    (Ok tt) (Ok tt) (Ok tt) (Ok tt).

Definition quiet : World := world [var_low; var_low] (Ok one) (Ok tt).
Definition uncertain : World := world [var_high; var_low] (Ok one) (Ok tt).
Definition oracle_fails : World :=
  world [var_high; var_low]
    (Raise (ExternalError "SCF did not converge")) (Ok tt).
Definition refit_fails : World :=
  world [var_high; var_low] (Ok one)
    (Raise (ExternalError "update_matrices_QR")).

End Scenario.

(** ** Variants of the scenario *)

Module Variants.

(** The controller after its first call, with a wandb object. *)
Definition store_wandb : Store :=
  mkStore
    (mkLMPOTF Scenario.gp0 ["B2"%string] (of_Z 5) [14] 1 [zero]
       lit_0_005 lit_0_0025 true true true 1 (-100) None None
       "otf.flare" None (Some "L-BFGS-B"%string) (Some 50) true)
    None.

(** The model predicts one variance for the two atoms, or none. *)
Definition short_scores : World :=
  Scenario.world [Scenario.var_high] (Ok Scenario.one) (Ok tt).
Definition no_scores : World :=
  Scenario.world [] (Ok Scenario.one) (Ok tt).

(** The structure a step builds from the snapshot of the scenario. *)
Definition blank : Structure := new_Structure [] [] [] zero [].

End Variants.

(** * Properties *)

(** ** Facts about binary64 *)

Section FloatFacts.

Lemma shr_1_nonneg r : 0 <= shr_m r -> 0 <= shr_m (shr_1 r).
Proof.
  destruct r as [m r s]; cbn [shr_m]; intros Hm.
  destruct m as [|p|p]; [cbn; lia | | lia].
  destruct p; cbn; lia.
Qed.

Lemma iter_pos_invariant {A} (P : A -> Prop) (f : A -> A) :
  (forall a, P a -> P (f a)) -> forall p a, P a -> P (iter_pos f p a).
Proof.
  intros Hf; induction p as [p IH|p IH|]; intros a Ha; cbn; auto.
Qed.

Lemma shr_nonneg r e n : 0 <= shr_m r -> 0 <= shr_m (fst (shr r e n)).
Proof.
  intros Hr; destruct n; cbn; auto.
  apply (iter_pos_invariant (fun r => 0 <= shr_m r));
    auto using shr_1_nonneg.
Qed.

Lemma shr_record_of_loc_m m l : shr_m (shr_record_of_loc m l) = m.
Proof. destruct l as [|[]]; reflexivity. Qed.

Lemma shr_fexp_nonneg m e l :
  0 <= m -> 0 <= shr_m (fst (shr_fexp prec emax m e l)).
Proof.
  intros Hm; unfold shr_fexp; apply shr_nonneg.
  now rewrite shr_record_of_loc_m.
Qed.

Lemma round_nearest_even_nonneg m l :
  0 <= m -> 0 <= round_nearest_even m l.
Proof.
  intros Hm; destruct l as [|[]]; cbn; try lia.
  destruct (Z.even m); lia.
Qed.

(** Rounding a non-negative mantissa never yields NaN. *)
Lemma binary_round_aux_not_nan sx mx ex lx :
  0 <= mx -> is_nan (binary_round_aux prec emax sx mx ex lx) = false.
Proof.
  intros Hm; unfold binary_round_aux.
  pose proof (shr_fexp_nonneg mx ex lx Hm) as H1.
  destruct (shr_fexp prec emax mx ex lx) as [mrs' e']; cbn [fst] in H1.
  pose proof (shr_fexp_nonneg _ e' loc_Exact
                (round_nearest_even_nonneg _ (loc_of_shr_record mrs') H1))
    as H2.
  destruct (shr_fexp prec emax _ e' loc_Exact) as [mrs'' e''];
    cbn [fst] in H2.
  destruct (shr_m mrs'') as [|p|p]; [reflexivity | | lia].
  destruct (e'' <=? emax - prec); reflexivity.
Qed.

Lemma sqrt_core_nonneg m e :
  0 <= fst (fst (SFsqrt_core_binary prec emax (Zpos m) e)).
Proof.
  unfold SFsqrt_core_binary.
  set (s := e - 2 * _).
  set (m' := match s with
             | Z0 => Zpos m
             | Zpos _ => Z.shiftl (Zpos m) s
             | Zneg _ => 0
             end).
  pose proof (Z.sqrtrem_sqrt m') as Hq.
  destruct (Z.sqrtrem m') as [q r]; cbn [fst] in *.
  subst q; apply Z.sqrt_nonneg.
Qed.

(** The square root of an absolute value is NaN only for a NaN. *)
Lemma sqrt_abs_is_nan v : is_nan (sqrt (abs v)) = is_nan v.
Proof.
  destruct v as [s|s| |s m e]; try reflexivity.
  unfold sqrt, abs, SFabs, SFsqrt.
  pose proof (sqrt_core_nonneg m e) as Hq.
  destruct (SFsqrt_core_binary prec emax (Zpos m) e) as [[q e'] l].
  now apply binary_round_aux_not_nan.
Qed.

(** The sign of the variance does not reach the score. *)
Lemma abs_opp v : abs (opp v) = abs v.
Proof. destruct v; reflexivity. Qed.

Lemma SFcompare_swap x y :
  SFcompare y x = option_map CompOpp (SFcompare x y).
Proof.
  destruct x as [sx|sx| |sx mx ex], y as [sy|sy| |sy my ey];
    try reflexivity;
    try (destruct sx; reflexivity);
    try (destruct sy; reflexivity);
    try (destruct sx, sy; reflexivity).
  cbn -[Z.compare]. f_equal.
  rewrite (Z.compare_antisym ex ey).
  destruct sx, sy; try reflexivity;
    destruct (ex ?= ey) eqn:He; cbn [CompOpp]; try reflexivity.
  - rewrite <- (Pos.compare_cont_antisym _ _ Eq). now rewrite CompOpp_involutive.
  - now rewrite <- (Pos.compare_cont_antisym _ _ Eq).
Qed.

(** [s <= t] excludes [s > t]. *)
Lemma leb_not_gtb s t : leb s t = true -> gtb s t = false.
Proof.
  unfold leb, gtb, SFleb, SFltb. rewrite (SFcompare_swap s t).
  destruct (SFcompare s t) as [[]|]; cbn; congruence.
Qed.

End FloatFacts.

(** ** Facts about the numpy operations *)

Section NumpyFacts.

Lemma any_gt_scalar_true a t :
  Numpy.any (Numpy.gt_scalar a t) = true <->
  exists s, In s a /\ gtb s t = true.
Proof.
  unfold Numpy.any, Numpy.gt_scalar. rewrite existsb_exists. split.
  - intros (b & Hin & Hb). apply in_map_iff in Hin as (s & Hs & Hin).
    exists s. split; congruence.
  - intros (s & Hin & Hs). exists true. split; [|reflexivity].
    apply in_map_iff. now exists s.
Qed.

Lemma any_gt_scalar_false a t :
  Numpy.any (Numpy.gt_scalar a t) = false <->
  forall s, In s a -> gtb s t = false.
Proof.
  split.
  - intros Hany s Hin. destruct (gtb s t) eqn:Hs; [|reflexivity].
    rewrite <- Hany. symmetry. apply any_gt_scalar_true. now exists s.
  - intros Hall. destruct (Numpy.any _) eqn:Hany; [|reflexivity].
    apply any_gt_scalar_true in Hany as (s & Hin & Hs).
    rewrite (Hall s Hin) in Hs. discriminate.
Qed.

Lemma select_seq mask : forall k i,
  In i (Numpy.select (map Z.of_nat (seq k (length mask))) mask) <->
  exists j, i = Z.of_nat (k + j) /\ nth_error mask j = Some true.
Proof.
  induction mask as [|b mask IH]; intros k i; cbn [length seq map Numpy.select].
  - split; [intros [] | intros (j & _ & Hj)]. now destruct j.
  - assert (Hrest : In i (Numpy.select (map Z.of_nat (seq (S k) (length mask))) mask)
                    <-> exists j, i = Z.of_nat (k + S j) /\ nth_error mask j = Some true).
    { rewrite IH. split; intros (j & Hi & Hj); exists j; split; auto; lia. }
    split.
    + intros Hin.
      assert (Hcase : (b = true /\ i = Z.of_nat k) \/
                      In i (Numpy.select (map Z.of_nat (seq (S k) (length mask))) mask)).
      { destruct b; [destruct Hin as [<-|Hin]|]; auto. }
      destruct Hcase as [[-> ->]|Hin'].
      * exists 0%nat. split; [f_equal; lia | reflexivity].
      * apply Hrest in Hin' as (j & Hi & Hj). now exists (S j).
    + intros ([|j] & Hi & Hj); cbn [nth_error] in Hj.
      * injection Hj as ->. left. subst i. f_equal. lia.
      * assert (Hin : In i (Numpy.select (map Z.of_nat (seq (S k) (length mask))) mask))
          by (apply Hrest; now exists j).
        destruct b; [right|]; exact Hin.
Qed.

(** [np.arange(n)[stds > t]]: the indices below [n] whose entry of
    [stds] exceeds [t]. *)
Lemma mask_index_arange n stds t atoms :
  Numpy.mask_index (Numpy.arange n) (Numpy.gt_scalar stds t) = Ok atoms ->
  forall i, In i atoms <->
    (0 <= i < n /\
     exists s, nth_error stds (Z.to_nat i) = Some s /\ gtb s t = true).
Proof.
  unfold Numpy.mask_index, Numpy.arange, Numpy.gt_scalar.
  rewrite !length_map, length_seq.
  destruct (Nat.eqb_spec (Z.to_nat n) (length stds)) as [Hlen|_];
    [|discriminate].
  intros [= <-] i. rewrite Hlen.
  rewrite <- (length_map (fun v => gtb v t) stds) at 1.
  rewrite select_seq. cbn [Nat.add]. split.
  - intros (j & -> & Hj). rewrite nth_error_map in Hj.
    destruct (nth_error stds j) as [s|] eqn:Hs; [|discriminate].
    injection Hj as Hj.
    assert (j < length stds)%nat by (apply nth_error_Some; congruence).
    split; [lia|]. exists s. now rewrite Nat2Z.id.
  - intros (Hi & s & Hs & Hgt). exists (Z.to_nat i).
    split; [lia|]. now rewrite nth_error_map, Hs; cbn; rewrite Hgt.
Qed.

Lemma mask_index_arange_ok n stds t :
  Z.to_nat n = length stds ->
  exists atoms,
    Numpy.mask_index (Numpy.arange n) (Numpy.gt_scalar stds t) = Ok atoms.
Proof.
  intros Hlen. unfold Numpy.mask_index, Numpy.arange, Numpy.gt_scalar.
  rewrite !length_map, length_seq, Hlen, Nat.eqb_refl. eauto.
Qed.

Lemma uncertainty_scores_map variances sigma :
  uncertainty_scores variances sigma = map (fun v => score v sigma) variances.
Proof.
  unfold uncertainty_scores, Numpy.div_scalar, Numpy.sqrt, Numpy.abs.
  now rewrite !map_map.
Qed.

Lemma getitem_0 {A} (a : list A) :
  Numpy.getitem a 0 =
  match a with x :: _ => Ok x | [] => Raise IndexError end.
Proof.
  destruct a as [|x a]; [reflexivity|].
  unfold Numpy.getitem. cbn [length nth_error Z.to_nat Z.ltb Z.compare].
  replace ((0 <=? 0) && (0 <? Z.of_nat (S (length a)))) with true; [reflexivity|].
  symmetry. apply andb_true_iff. split; [apply Z.leb_le | apply Z.ltb_lt]; lia.
Qed.

End NumpyFacts.

(** ** The maximum of scores that are not NaN *)

Lemma gtb_key x y :
  gtb x y = true <->
  is_nan x = false /\ is_nan y = false /\ key_lt (order_key y) (order_key x).
Proof.
  unfold gtb, SFltb.
  destruct x as [sx|sx| |sx mx ex], y as [sy|sy| |sy my ey]; cbn -[Z.compare];
    try (destruct sx); try (destruct sy); cbn -[Z.compare];
    try (split; [discriminate | intros (? & ? & ?); try discriminate; lia]);
    try (split; [intros _; repeat split; lia | reflexivity]).
  - destruct (Z.compare_spec ey ex) as [He|He|He].
    + rewrite Pos.compare_cont_spec. cbn [Pos.switch_Eq].
      destruct (Pos.compare_spec my mx) as [Hm|Hm|Hm]; cbn;
        (split; [try discriminate; intros _; repeat split; lia
                | intros (_ & _ & H); try reflexivity; lia]).
    + split; [discriminate | intros (_ & _ & H); lia].
    + split; [intros _; repeat split; lia | reflexivity].
  - destruct (Z.compare_spec ey ex) as [He|He|He].
    + rewrite Pos.compare_cont_spec. cbn [Pos.switch_Eq].
      destruct (Pos.compare_spec my mx) as [Hm|Hm|Hm]; cbn;
        (split; [try discriminate; intros _; repeat split; lia
                | intros (_ & _ & H); try reflexivity; lia]).
    + split; [intros _; repeat split; lia | reflexivity].
    + split; [discriminate | intros (_ & _ & H); lia].
Qed.

Ltac key_order :=
  unfold key_lt in *;
  repeat match goal with
         | |- context [order_key ?x] =>
             let a := fresh "k" in let b := fresh "k" in let c := fresh "k" in
             destruct (order_key x) as [[a b] c]
         | H : context [order_key ?x] |- _ =>
             let a := fresh "k" in let b := fresh "k" in let c := fresh "k" in
             destruct (order_key x) as [[a b] c]
         end;
  lia.

Lemma gtb_false_key x y :
  is_nan x = false -> is_nan y = false ->
  gtb x y = false -> ~ key_lt (order_key y) (order_key x).
Proof.
  intros Hx Hy Hgt Hlt.
  assert (Htrue : gtb x y = true) by (apply gtb_key; auto).
  congruence.
Qed.

(** Among floats that are not NaN, [max2] is a maximum. *)
Lemma fold_max2_spec rest : forall x,
  (forall s, In s (x :: rest) -> is_nan s = false) ->
  let m := fold_left Numpy.max2 rest x in
  In m (x :: rest) /\ is_nan m = false /\
  (forall s, In s (x :: rest) -> gtb s m = false).
Proof.
  induction rest as [|y rest IH]; intros x Hnan; cbn [fold_left].
  - split; [now left|]. split; [apply Hnan; now left|].
    intros s [<-|[]]. destruct (gtb x x) eqn:Hxx; [|reflexivity].
    apply gtb_key in Hxx as (_ & _ & Hlt). exfalso. key_order.
  - assert (Hx : is_nan x = false) by (apply Hnan; now left).
    assert (Hy : is_nan y = false) by (apply Hnan; right; now left).
    set (x' := Numpy.max2 x y).
    assert (Hx' : (x' = x \/ x' = y) /\ is_nan x' = false /\
                  gtb x x' = false /\ gtb y x' = false).
    { subst x'. unfold Numpy.max2. rewrite Hx, Hy.
      destruct (gtb y x) eqn:Hyx.
      - repeat split; auto.
        + destruct (gtb x y) eqn:Hxy; [|reflexivity].
          apply gtb_key in Hyx as (_ & _ & H1).
          apply gtb_key in Hxy as (_ & _ & H2). exfalso. key_order.
        + destruct (gtb y y) eqn:Hyy; [|reflexivity].
          apply gtb_key in Hyy as (_ & _ & H1). exfalso. key_order.
      - repeat split; auto.
        destruct (gtb x x) eqn:Hxx; [|reflexivity].
        apply gtb_key in Hxx as (_ & _ & H1). exfalso. key_order. }
    destruct Hx' as (Hin & Hn' & Hxx' & Hyx').
    destruct (IH x') as (Hm & Hmn & Hub).
    { intros s [<-|Hs]; [exact Hn'|]. apply Hnan. right. now right. }
    split; [|split; [exact Hmn|]].
    + destruct Hm as [Hm|Hm].
      * rewrite <- Hm. destruct Hin as [->| ->]; [now left | right; now left].
      * right. now right.
    + assert (Hx'm : gtb x' (fold_left Numpy.max2 rest x') = false)
        by (apply Hub; now left).
      assert (Hle : forall s, is_nan s = false -> gtb s x' = false ->
                              gtb s (fold_left Numpy.max2 rest x') = false).
      { intros s Hs Hsx'.
        destruct (gtb s (fold_left Numpy.max2 rest x')) eqn:Hgt; [|reflexivity].
        apply gtb_key in Hgt as (_ & _ & H1).
        pose proof (gtb_false_key _ _ Hs Hn' Hsx') as H2.
        pose proof (gtb_false_key _ _ Hn' Hmn Hx'm) as H3.
        exfalso. key_order. }
      intros s [<-|[<-|Hs]]; [now apply Hle | now apply Hle |].
      apply Hub. now right.
Qed.

(** On scores without NaN, comparing [np.amax(stds)] with the
    threshold is the same as [np.any(stds > threshold)]. *)
Lemma amax_exceeds stds thr m :
  (forall s, In s stds -> is_nan s = false) ->
  Numpy.amax stds = Ok m ->
  gtb m thr = Numpy.any (Numpy.gt_scalar stds thr).
Proof.
  intros Hnan Hmax. destruct stds as [|x rest]; [discriminate|].
  cbn [Numpy.amax] in Hmax. injection Hmax as <-.
  destruct (fold_max2_spec rest x Hnan) as (Hin & Hmn & Hub).
  destruct (Numpy.any _) eqn:Hany.
  - apply any_gt_scalar_true in Hany as (s & Hs & Hgt).
    pose proof (Hub s Hs) as Hsm.
    apply gtb_key in Hgt as (Hsn & Htn & H1).
    pose proof (gtb_false_key _ _ Hsn Hmn Hsm) as H2.
    apply gtb_key. repeat split; auto. key_order.
  - apply (proj1 (any_gt_scalar_false _ _) Hany). exact Hin.
Qed.

(** ** Reasoning about computations in [M] *)

Section Frame.

Variable R : Store -> Store -> Prop.
Hypothesis R_refl : forall st, R st st.
Hypothesis R_trans : forall a b c, R a b -> R b c -> R a c.

Lemma preserves_ret {A} (a : A) : preserves R (ret a).
Proof. intros st; apply R_refl. Qed.

Lemma preserves_raise {A} e : preserves R (@raise A e).
Proof. intros st; apply R_refl. Qed.

Lemma preserves_lift {A} (r : result A) : preserves R (lift r).
Proof. intros st; apply R_refl. Qed.

Lemma preserves_call {A} ev (r : result A) : preserves R (call ev r).
Proof. intros st; apply R_refl. Qed.

Lemma preserves_log r : preserves R (log r).
Proof. apply preserves_call. Qed.

Lemma preserves_get_self : preserves R get_self.
Proof. intros st; apply R_refl. Qed.

Lemma preserves_bind {A B} (m : M A) (f : A -> M B) :
  preserves R m -> (forall a, preserves R (f a)) -> preserves R (bind m f).
Proof.
  intros Hm Hf st. specialize (Hm st). unfold bind, store_of in *.
  destruct (m st) as [[st1 ev1] [a|e]]; cbn in *; [|exact Hm].
  specialize (Hf a st1).
  destruct (f a st1) as [[st2 ev2] r2]; cbn in *. eauto.
Qed.

Lemma preserves_try_except {A} (m : M A) (h : exn -> M A) :
  preserves R m -> (forall e, preserves R (h e)) ->
  preserves R (try_except m h).
Proof.
  intros Hm Hh st. specialize (Hm st). unfold try_except, store_of in *.
  destruct (m st) as [[st1 ev1] [a|e]]; cbn in *; [exact Hm|].
  specialize (Hh e st1).
  destruct (h e st1) as [[st2 ev2] r2]; cbn in *. eauto.
Qed.

Lemma preserves_modify_self f :
  (forall st, R st (mkStore (f (self st)) (model_file st))) ->
  preserves R (modify_self f).
Proof. intros Hf st; apply Hf. Qed.

Lemma preserves_write_model_file c :
  (forall st, R st (mkStore (self st) (Some c))) ->
  preserves R (write_model_file c).
Proof. intros Hc st; apply Hc. Qed.

End Frame.

(** Decompose a goal [preserves R m] along the structure of [m]; what
    is left are the places where the store is written. *)
Ltac frame_step :=
  match goal with
  | |- preserves _ (bind _ _) =>
      apply preserves_bind; [solve [eauto] | | intros ?]
  | |- preserves _ (try_except _ _) =>
      apply preserves_try_except; [solve [eauto] | | intros ?]
  | |- preserves _ (ret _) => apply preserves_ret; solve [eauto]
  | |- preserves _ (raise _) => apply preserves_raise; solve [eauto]
  | |- preserves _ (lift _) => apply preserves_lift; solve [eauto]
  | |- preserves _ (call _ _) => apply preserves_call; solve [eauto]
  | |- preserves _ (log _) => apply preserves_log; solve [eauto]
  | |- preserves _ get_self => apply preserves_get_self; solve [eauto]
  | |- preserves _ (modify_gp _) => unfold modify_gp
  | |- preserves _ (modify_self _) => apply preserves_modify_self; intros ?
  | |- preserves _ (write_model_file _) =>
      apply preserves_write_model_file; intros ?
  | |- preserves _ (match ?x with _ => _ end) => destruct x
  end.

Section Monotone.

Variable np_sum np_mean : list float -> float.

Lemma dft_calls_le_refl st : dft_calls_le st st.
Proof. unfold dft_calls_le; lia. Qed.

Lemma dft_calls_le_trans a b c :
  dft_calls_le a b -> dft_calls_le b c -> dft_calls_le a c.
Proof. unfold dft_calls_le; lia. Qed.

#[local] Hint Resolve dft_calls_le_refl dft_calls_le_trans : core.

Lemma step_dft_calls_le w : preserves dft_calls_le (step np_sum np_mean w).
Proof.
  unfold step, step_body, bootstrap, steady, telemetry, query,
    predict_scores, maybe_optimize, run_dft, save,
    add_training_structure, add_random_environments,
    add_specific_environments, update_matrices_QR,
    compute_likelihood_stable, run_optimize_hyperparameters.
  repeat frame_step; unfold dft_calls_le; cbn; lia.
Qed.

Lemma run_steps_dft_calls_le ws : forall st,
  dft_calls_le st (run_steps np_sum np_mean ws st).
Proof.
  induction ws as [|w ws IH]; intros st; cbn [run_steps fold_left]; auto.
  eapply dft_calls_le_trans; [apply (step_dft_calls_le w st)|].
  apply IH.
Qed.

End Monotone.

(** ** Running a computation symbolically *)

Ltac reduce_in H :=
  cbv beta iota zeta
      delta [bind ret raise lift call log get_self modify_self modify_gp
             write_model_file try_except result_map result_bind fst snd
             set_local_uncertainties local_uncertainties
             new_Structure set_efs mean_efs variance_efs] in H.

(** Follow the computation in [H : m st = (st', evs, r)] through every
    branch, one case per way the world can answer.  The two flags that
    only select a value are left alone. *)
Ltac run_in H :=
  repeat (reduce_in H;
          match type of H with
          | context [match ?x with _ => _ end] =>
              lazymatch x with
              | context [match _ with _ => _ end] => fail
              | force_training _ => fail
              | energy_training _ => fail
              | _ => destruct x eqn:?
              end
          end);
  reduce_in H; injection H as <- <- <-.

Ltac observe :=
  unfold store_of, events_of, result_of; cbn [fst snd].

Lemma existsb_excluded {A} (p q : A -> bool) (l : list A) :
  (forall a, q a = true -> p a = false) ->
  forallb q l = true -> existsb p l = false.
Proof.
  intros Hpq Hq. induction l as [|a l IH]; cbn in *; [reflexivity|].
  apply andb_true_iff in Hq as [Ha Hl]. now rewrite (Hpq a Ha), IH.
Qed.

Section Blocks.

Variable np_sum np_mean : list float -> float.

(** [run_dft] either raises before line 268 and leaves the store
    alone, or gets past line 269 with both counters written; it calls
    the calculator for the energy at most once. *)
Lemma run_dft_cases w cell x types step s st :
  let out := run_dft np_sum w cell x types step s st in
  forallb oracle_family (events_of out) = true /\
  (oracle_calls (events_of out) <= 1)%nat /\
  (is_ok (Numpy.take (type2number (self st)) (minus_one types)) = true ->
   is_ok (dft_frame_init w) = true ->
   invokes_oracle (events_of out) = true) /\
  ((commits_call (events_of out) = false /\
    store_of out = st /\ is_ok (result_of out) = false) \/
   (commits_call (events_of out) = true /\
    invokes_oracle (events_of out) = true /\
    store_of out = record_call st step /\
    is_ok (dft_potential_energy w) && is_ok (dft_forces w)
      && is_ok (dft_stress w) = true)).
Proof.
  intros out; subst out.
  destruct (run_dft np_sum w cell x types step s st)
    as [[st' evs] r] eqn:Hrun.
  observe. unfold run_dft in Hrun.
  run_in Hrun; cbn; repeat split; auto; try discriminate;
    solve [ left; repeat split; reflexivity
          | right; repeat split; reflexivity
          | destruct st; reflexivity ].
Qed.

(** The wandb block reports and changes nothing. *)
Lemma telemetry_cases w step stds wandb_log q st :
  let out := telemetry w step stds wandb_log q st in
  store_of out = st /\ forallb diagnostic (events_of out) = true.
Proof.
  intros out; subst out.
  destruct (telemetry w step stds wandb_log q st) as [[st' evs] r] eqn:Hrun.
  observe. unfold telemetry in Hrun.
  run_in Hrun; split; reflexivity.
Qed.

(** Hyperparameter optimization touches the GP only. *)
Lemma maybe_optimize_cases w step st :
  let out := maybe_optimize w step st in
  same_counters st (store_of out) /\
  model_file (store_of out) = model_file st /\
  forallb optimization_family (events_of out) = true.
Proof.
  intros out; subst out.
  destruct (maybe_optimize w step st) as [[st' evs] r] eqn:Hrun.
  observe. unfold maybe_optimize, compute_likelihood_stable,
    run_optimize_hyperparameters in Hrun.
  run_in Hrun; repeat split; reflexivity.
Qed.



Lemma existsb_false_filter {A} (p : A -> bool) l :
  existsb p l = false -> filter p l = [].
Proof.
  induction l as [|a l IH]; cbn; [reflexivity|].
  destruct (p a); cbn; [discriminate | exact IH].
Qed.

Ltac exclude H :=
  apply (existsb_excluded _ _ _) with (2 := H);
  let ev := fresh in
  intros ev; destruct ev; cbn; try congruence;
  repeat match goal with
         | |- context [match ?x with _ => _ end] =>
             destruct x; cbn; try congruence
         end.

Ltac absent H :=
  let s := fresh in let a := fresh in let Hin := fresh in
  intros s a Hin;
  apply (proj1 (forallb_forall _ _) H) in Hin; discriminate Hin.

(** What a list of reporting events cannot contain. *)
Lemma diagnostic_events l :
  forallb diagnostic l = true ->
  commits_call l = false /\ invokes_oracle l = false /\
  attempts_refit l = false /\ enters_query l = false /\
  oracle_calls l = 0%nat /\
  (forall s a, ~ In (AddSpecificEnvironments s a) l).
Proof.
  intros H.
  assert (Ho : invokes_oracle l = false) by exclude H.
  repeat split; try exact Ho; try solve [exclude H]; try solve [absent H].
  unfold oracle_calls. now rewrite (existsb_false_filter _ _ Ho).
Qed.

Lemma optimization_events l :
  forallb optimization_family l = true ->
  commits_call l = false /\ invokes_oracle l = false /\
  attempts_refit l = false /\ enters_query l = false /\
  oracle_calls l = 0%nat /\
  (forall s a, ~ In (AddSpecificEnvironments s a) l).
Proof.
  intros H.
  assert (Ho : invokes_oracle l = false) by exclude H.
  repeat split; try exact Ho; try solve [exclude H]; try solve [absent H].
  unfold oracle_calls. now rewrite (existsb_false_filter _ _ Ho).
Qed.

Lemma oracle_events l :
  forallb oracle_family l = true ->
  attempts_refit l = false /\ enters_query l = false /\
  evaluates_uncertainty l = false /\
  (forall s a, ~ In (AddSpecificEnvironments s a) l).
Proof.
  intros H.
  repeat split; try solve [exclude H]; try solve [absent H].
Qed.

End Blocks.

Ltac unfold_step :=
  unfold step, step_body, bootstrap, steady, query,
    predict_scores, save,
    add_training_structure, add_random_environments,
    add_specific_environments, update_matrices_QR in *.

Ltac observe_in H :=
  cbv zeta in H; unfold store_of, events_of, result_of in H;
  cbn [fst snd] in H.

(** Replace what is known about a finished block by its summary. *)
Ltac summarize :=
  repeat match goal with
  | H : run_dft ?f ?w ?c ?x ?t ?k ?s ?st = _ |- _ =>
      let Hs := fresh "Hdft" in
      let Hfam := fresh "Hfam" in
      pose proof (run_dft_cases f w c x t k s st) as Hs;
      cbv zeta in Hs; rewrite H in Hs; clear H; observe_in Hs;
      destruct Hs as (Hfam & Hs);
      pose proof (oracle_events _ Hfam) as (? & ? & ? & ?)
  | H : telemetry ?w ?k ?stds ?l ?q ?st = _ |- _ =>
      let Hs := fresh "Htel" in
      let Hfam := fresh "Hfam" in
      pose proof (telemetry_cases w k stds l q st) as Hs;
      cbv zeta in Hs; rewrite H in Hs; clear H; observe_in Hs;
      destruct Hs as (-> & Hfam);
      pose proof (diagnostic_events _ Hfam) as (? & ? & ? & ? & ? & ?)
  | H : maybe_optimize ?w ?k ?st = _ |- _ =>
      let Hs := fresh "Hopt" in
      let Hfam := fresh "Hfam" in
      pose proof (maybe_optimize_cases w k st) as Hs;
      cbv zeta in Hs; rewrite H in Hs; clear H; observe_in Hs;
      destruct Hs as (Hs & ? & Hfam);
      pose proof (optimization_events _ Hfam) as (? & ? & ? & ? & ? & ?)
  end.

(** Split what the summaries say into cases. *)
Ltac cases :=
  repeat match goal with
         | H : _ /\ _ |- _ => destruct H
         | H : _ \/ _ |- _ => destruct H
         end;
  subst.

(** Evaluate the event predicates on a list made of known events and
    of the events of summarized blocks. *)
Ltac events :=
  unfold commits_call, invokes_oracle, attempts_refit, enters_query,
    evaluates_uncertainty, reaches_decision, oracle_calls in *;
  repeat (progress
    (rewrite ?existsb_app, ?forallb_app, ?filter_app, ?length_app;
     cbn [existsb forallb filter length app orb andb Nat.add diagnostic
          is_oracle_call is_post_dft_callback is_refit];
     repeat match goal with
            | H : existsb _ ?l = _ |- context [existsb _ ?l] => rewrite H
            | H : forallb _ ?l = _ |- context [forallb _ ?l] => rewrite H
            | H : length (filter _ ?l) = _ |- context [filter _ ?l] =>
                rewrite H
            end)).

(** Go through the places where an [AddSpecificEnvironments] event can
    sit in a list of events. *)
Ltac locate Hin :=
  repeat first [ rewrite in_app_iff in Hin
               | progress cbn [In] in Hin
               | destruct Hin as [Hin|Hin] ];
  try discriminate Hin; try contradiction;
  try solve [exfalso;
             match goal with
             | H : forall s a, ~ In (AddSpecificEnvironments s a) ?l,
               Hl : In _ ?l |- _ => exact (H _ _ Hl)
             end].

Section StepFacts.

Variable np_sum np_mean : list float -> float.

(** How the two counters move in one step. *)
Lemma step_counters w st :
  let out := step np_sum np_mean w st in
  (commits_call (events_of out) = true ->
     dft_calls (self (store_of out)) = dft_calls (self st) + 1 /\
     (exists snap, lmp_snapshot w = Ok snap /\
                   last_dft_call (self (store_of out)) = snap_step snap) /\
     invokes_oracle (events_of out) = true /\
     is_ok (dft_potential_energy w) && is_ok (dft_forces w)
       && is_ok (dft_stress w) = true) /\
  (commits_call (events_of out) = false -> same_counters st (store_of out)) /\
  (attempts_refit (events_of out) = true ->
     commits_call (events_of out) = true) /\
  (is_ok (result_of out) = true -> invokes_oracle (events_of out) = true ->
     commits_call (events_of out) = true) /\
  (oracle_calls (events_of out) <= 1)%nat.
Proof.
  intros out; subst out.
  destruct (step np_sum np_mean w st) as [[st' evs] r] eqn:Hstep.
  observe. unfold_step.
  run_in Hstep.
  all: summarize; unfold same_counters in *; cases.
  all: events.
  all: repeat split; intros; try discriminate; try reflexivity;
    try assumption; try (cbn; lia); try (eexists; split; [reflexivity | cbn; congruence]);
    try (cbn; congruence).
  all: eexists; split; [reflexivity|]; cbn;
    match goal with
    | H : last_dft_call (self ?s) = _ |- context [self ?s] => rewrite H
    end; reflexivity.
Qed.

(** The first call: no uncertainty is evaluated, and the oracle is
    asked as soon as the frame for it is built. *)
Lemma bootstrap_events w st :
  dft_calls (self st) = 0 ->
  let out := step np_sum np_mean w st in
  evaluates_uncertainty (events_of out) = false /\
  (forall snap,
     lmp_snapshot w = Ok snap ->
     is_ok (structure_init w) = true ->
     is_ok (Numpy.take (type2number (self st))
              (minus_one (snap_types snap))) = true ->
     is_ok (dft_frame_init w) = true ->
     invokes_oracle (events_of out) = true) /\
  (is_ok (result_of out) = true ->
     commits_call (events_of out) = true /\
     invokes_oracle (events_of out) = true) /\
  (forall s a, ~ In (AddSpecificEnvironments s a) (events_of out)).
Proof.
  intros Hzero out; subst out.
  destruct (step np_sum np_mean w st) as [[st' evs] r] eqn:Hstep.
  observe. unfold_step.
  reduce_in Hstep. rewrite Hzero in Hstep. change (0 =? 0) with true in Hstep.
  run_in Hstep; summarize; cases; events;
    repeat split; try discriminate; try reflexivity; try assumption;
    try (intros ? [= <-]; cbn; intros; try discriminate; auto).
  all: try (let Hin := fresh in intros ? ? Hin; locate Hin).
  rewrite orb_false_r; auto.
Qed.

(** Every later call: the scores decide whether the query branch is
    entered, and which atoms are handed to the GP. *)
Lemma steady_decision w st :
  dft_calls (self st) <> 0 ->
  let out := step np_sum np_mean w st in
  (scores_at w st = None ->
     store_of out = st /\ forallb diagnostic (events_of out) = true) /\
  (forall stds,
     scores_at w st = Some stds ->
     let call_dft :=
       Numpy.any (Numpy.gt_scalar stds (dft_call_threshold (self st))) in
     (call_dft = false ->
        store_of out = st /\ forallb diagnostic (events_of out) = true) /\
     (reaches_decision (events_of out) = true ->
        enters_query (events_of out) = call_dft) /\
     (enters_query (events_of out) = true -> call_dft = true) /\
     (forall s atoms,
        In (AddSpecificEnvironments s atoms) (events_of out) ->
        exists snap,
          lmp_snapshot w = Ok snap /\
          Numpy.mask_index (Numpy.arange (snap_natoms snap))
            (Numpy.gt_scalar stds (dft_add_threshold (self st)))
            = Ok atoms)) /\
  (forall s atoms,
     In (AddSpecificEnvironments s atoms) (events_of out) ->
     scores_at w st <> None).
Proof.
  intros Hsteady out; subst out. apply Z.eqb_neq in Hsteady.
  destruct (step np_sum np_mean w st) as [[st' evs] r] eqn:Hstep.
  observe. unfold_step.
  reduce_in Hstep. rewrite Hsteady in Hstep.
  run_in Hstep.
  all: summarize; cases.
  all: unfold scores_at;
    repeat match goal with
           | H : _ = Ok _ |- context [match ?x with _ => _ end] =>
               rewrite H
           | H : _ = Raise _ |- context [match ?x with _ => _ end] =>
               rewrite H
           end.
  all: repeat apply conj.
  all: try (intros [=]; fail).
  all: try (intros ? [=]; fail).
  all: try (intros _; split; [reflexivity | events; reflexivity]).
  all: try (let stds := fresh in
            intros stds [= <-]; rewrite <- uncertainty_scores_map;
            cbv zeta; repeat apply conj).
  all: try (let Hin := fresh in intros ? ? Hin; locate Hin;
            try discriminate;
            try (injection Hin as <- <-; eexists; split;
                 [reflexivity | assumption])).
  all: try (events; intros; congruence).
  all: try (intros _; split; [reflexivity | events; reflexivity]).
  all: intros stds _; repeat apply conj;
    [ intros _; split; reflexivity
    | cbn; discriminate
    | cbn; discriminate
    | let Hin := fresh in intros ? ? Hin; locate Hin ].
Qed.

End StepFacts.

(** * The claims *)

Section Claims.

Variable np_sum np_mean : list float -> float.

(** When [stress_training] is set, a [run_dft] that returns has put
    the transformed stress of the calculator into the structure. *)
Lemma run_dft_stresses w cell x types step s st pe F s' :
  stress_training (self st) = true ->
  result_of (run_dft np_sum w cell x types step s st) = Ok (pe, F, s') ->
  exists sigma,
    dft_stress w = Ok sigma /\ transform_stress sigma = Ok (stresses s').
Proof.
  intros Hflag.
  destruct (run_dft np_sum w cell x types step s st)
    as [[st' evs] r] eqn:Hrun.
  observe. unfold run_dft in Hrun.
  run_in Hrun; try discriminate; try congruence.
  all: intros [= <- <- <-]; eexists; split; [reflexivity|];
    cbn [stresses set_stresses]; assumption.
Qed.

(** The scores of a step are those that [scores_at] reads off. *)
Lemma predict_scores_eq w structure st sigma rest variances lus :
  hyperparameters (sparse_gp (self st)) = sigma :: rest ->
  gp_local_uncertainties w = Ok (variances :: lus) ->
  predict_scores w structure st =
    (st, [PredictLocalUncertainties],
     Ok (map (fun v => score v sigma) variances,
         set_local_uncertainties structure (variances :: lus))).
Proof.
  intros Hsigma Hlu. unfold predict_scores.
  cbv beta iota zeta delta [bind get_self lift call ret].
  rewrite Hsigma, Hlu, getitem_0.
  cbn [local_uncertainties set_local_uncertainties].
  rewrite getitem_0, uncertainty_scores_map. reflexivity.
Qed.

(** ** The claims *)

(** C1.  On a call made while [dft_calls] is 0, no uncertainty is
    evaluated (neither [predict_local_uncertainties] nor
    [predict_DTC] is called); the calculator is asked for the energy
    as soon as the configuration is gathered and the frame for it is
    built, whatever the model would predict; and when the step
    returns normally the oracle has been called and [dft_calls] is
    1. *)
Theorem bootstrap_invokes_oracle :
  forall (w : World) (st : Store),
    dft_calls (self st) = 0 ->
    let out := step np_sum np_mean w st in
    evaluates_uncertainty (events_of out) = false /\
    (forall snap,
       lmp_snapshot w = Ok snap ->
       is_ok (structure_init w) = true ->
       is_ok (Numpy.take (type2number (self st))
                (minus_one (snap_types snap))) = true ->
       is_ok (dft_frame_init w) = true ->
       invokes_oracle (events_of out) = true) /\
    (result_of out = Ok tt ->
       invokes_oracle (events_of out) = true /\
       dft_calls (self (store_of out)) = 1).
Proof.
  intros w st Hzero out.
  destruct (bootstrap_events np_sum np_mean w st Hzero) as (Hnone & Hasked & Hdone & _).
  destruct (step_counters np_sum np_mean w st) as (Hcommit & _).
  fold out in Hnone, Hasked, Hdone, Hcommit.
  split; [exact Hnone|]. split; [exact Hasked|].
  intros Hok. destruct Hdone as [Hc Ho]; [now rewrite Hok|].
  split; [exact Ho|].
  destruct (Hcommit Hc) as (Hcalls & _). lia.
Qed.

(** C2, as the code has it.  [dft_calls] never decreases over a run.
    In one step it increases by exactly 1 when [run_dft] gets past
    the oracle call to its counter update (the post-DFT callback is
    then invoked), and is unchanged otherwise; so it increases by 1
    on every step that calls the oracle and returns normally, and is
    unchanged on every step whose query decision is false. *)
Theorem dft_calls_counts_completed_oracle_calls :
  (forall ws st,
     dft_calls (self st)
       <= dft_calls (self (run_steps np_sum np_mean ws st))) /\
  (forall w st,
     let out := step np_sum np_mean w st in
     (commits_call (events_of out) = true ->
        dft_calls (self (store_of out)) = dft_calls (self st) + 1) /\
     (commits_call (events_of out) = false ->
        dft_calls (self (store_of out)) = dft_calls (self st)) /\
     (is_ok (result_of out) = true ->
      invokes_oracle (events_of out) = true ->
        dft_calls (self (store_of out)) = dft_calls (self st) + 1) /\
     (0 < dft_calls (self st) ->
      (forall stds,
         scores_at w st = Some stds ->
         Numpy.any (Numpy.gt_scalar stds (dft_call_threshold (self st)))
           = false) ->
        dft_calls (self (store_of out)) = dft_calls (self st))).
Proof.
  split; [exact (run_steps_dft_calls_le np_sum np_mean)|].
  intros w st out.
  destruct (step_counters np_sum np_mean w st) as (Hcommit & Hnot & _ & Hok & _).
  fold out in Hcommit, Hnot, Hok.
  repeat split.
  - intros Hc. now destruct (Hcommit Hc).
  - intros Hc. now destruct (Hnot Hc).
  - intros Hr Ho. now destruct (Hcommit (Hok Hr Ho)).
  - intros Hsteady Hidle.
    assert (Hne : dft_calls (self st) <> 0) by lia.
    destruct (steady_decision np_sum np_mean w st Hne) as (Hnone & Hsome & _).
    fold out in Hnone, Hsome.
    destruct (scores_at w st) as [stds|] eqn:Hs.
    + destruct (Hsome stds eq_refl) as (Hsame & _).
      destruct (Hsame (Hidle stds eq_refl)) as [-> _]. reflexivity.
    + destruct (Hnone eq_refl) as [-> _]. reflexivity.
Qed.

(** C3, as the code has it.  The two counters are written inside
    [run_dft], after the oracle call has succeeded and before the
    model is refitted: a step that changes a counter has obtained
    energy, forces and stress from the calculator, and a step that
    gets as far as adding training data or refitting has already
    written both counters, whether or not the refit then raises. *)
Theorem counters_written_after_oracle_before_refit :
  forall (w : World) (st : Store),
    let out := step np_sum np_mean w st in
    (dft_calls (self (store_of out)) <> dft_calls (self st) \/
     last_dft_call (self (store_of out)) <> last_dft_call (self st) ->
       is_ok (dft_potential_energy w) && is_ok (dft_forces w)
         && is_ok (dft_stress w) = true) /\
    (attempts_refit (events_of out) = true ->
       dft_calls (self (store_of out)) = dft_calls (self st) + 1 /\
       exists snap,
         lmp_snapshot w = Ok snap /\
         last_dft_call (self (store_of out)) = snap_step snap).
Proof.
  intros w st out.
  destruct (step_counters np_sum np_mean w st) as (Hcommit & Hnot & Hrefit & _).
  fold out in Hcommit, Hnot, Hrefit. split.
  - intros Hchanged.
    destruct (commits_call (events_of out)) eqn:Hc.
    + now destruct (Hcommit eq_refl) as (_ & _ & _ & Hw).
    + destruct (Hnot eq_refl) as [Hd Hl]. destruct Hchanged; contradiction.
  - intros Hr. destruct (Hcommit (Hrefit Hr)) as (Hd & Hl & _). now split.
Qed.

(** C4.  The query decision is [np.any(stds > dft_call_threshold)]:
    it is true exactly when some score is strictly above the
    threshold, and false when every score is at or below it; on scores
    without NaN it is the comparison of the maximum score with the
    threshold (one ulp above 0.005 queries; 0.005 itself and one ulp
    below do not).  A
    step with [dft_calls > 0] that reaches the decision enters the
    query branch exactly in that case, and never enters it
    otherwise. *)
Theorem query_decision_strict_threshold :
  (forall stds thr,
     Numpy.any (Numpy.gt_scalar stds thr) = true <->
     exists s, In s stds /\ gtb s thr = true) /\
  (forall stds thr,
     (forall s, In s stds -> leb s thr = true) ->
     Numpy.any (Numpy.gt_scalar stds thr) = false) /\
  (forall stds thr m,
     (forall s, In s stds -> is_nan s = false) ->
     Numpy.amax stds = Ok m ->
     Numpy.any (Numpy.gt_scalar stds thr) = gtb m thr) /\
  (Numpy.any (Numpy.gt_scalar [SFsucc prec emax lit_0_005] lit_0_005) = true /\
   Numpy.any (Numpy.gt_scalar [lit_0_005] lit_0_005) = false /\
   Numpy.any (Numpy.gt_scalar [SFpred prec emax lit_0_005] lit_0_005) = false) /\
  (forall w st stds,
     0 < dft_calls (self st) ->
     scores_at w st = Some stds ->
     let out := step np_sum np_mean w st in
     let exceeds :=
       exists s, In s stds /\ gtb s (dft_call_threshold (self st)) = true in
     (enters_query (events_of out) = true -> exceeds) /\
     (reaches_decision (events_of out) = true ->
        (enters_query (events_of out) = true <-> exceeds))).
Proof.
  split; [exact any_gt_scalar_true|].
  split.
  { intros stds thr Hle. apply any_gt_scalar_false.
    intros s Hin. apply leb_not_gtb. now apply Hle. }
  split; [intros stds thr m Hnan Hmax; symmetry; now apply amax_exceeds|].
  split; [repeat split; vm_compute; reflexivity|].
  intros w st stds Hsteady Hs out exceeds.
  assert (Hne : dft_calls (self st) <> 0) by lia.
  destruct (steady_decision np_sum np_mean w st Hne) as (_ & Hsome & _).
  destruct (Hsome stds Hs) as (_ & Hreach & Henter & _).
  fold out in Hreach, Henter. subst exceeds. split.
  - intros He. now apply any_gt_scalar_true, Henter.
  - intros Hr. rewrite (Hreach Hr). apply any_gt_scalar_true.
Qed.

(** C5.  Whenever a step hands atoms to
    [add_specific_environments], it has called the oracle, and the
    atoms are [np.arange(natoms)[stds > dft_add_threshold]]: each
    index lies in [0, natoms), and an index is handed over exactly
    when the score of that atom is strictly above
    [dft_add_threshold]. *)
Theorem added_atoms_exceed_add_threshold :
  forall (w : World) (st : Store) (s : Structure) (atoms : list Z),
    let out := step np_sum np_mean w st in
    In (AddSpecificEnvironments s atoms) (events_of out) ->
    exists snap stds,
      lmp_snapshot w = Ok snap /\
      scores_at w st = Some stds /\
      dft_calls (self st) <> 0 /\
      invokes_oracle (events_of out) = true /\
      (forall i, In i atoms -> 0 <= i < snap_natoms snap) /\
      (forall i,
         In i atoms <->
         0 <= i < snap_natoms snap /\
         exists sc,
           nth_error stds (Z.to_nat i) = Some sc /\
           gtb sc (dft_add_threshold (self st)) = true).
Proof.
  intros w st s atoms out Hin.
  destruct (Z.eq_dec (dft_calls (self st)) 0) as [Hzero|Hne].
  { destruct (bootstrap_events np_sum np_mean w st Hzero) as (_ & _ & _ & Hno).
    exfalso. exact (Hno s atoms Hin). }
  destruct (steady_decision np_sum np_mean w st Hne) as (_ & Hsome & Hdef).
  fold out in Hsome, Hdef.
  destruct (scores_at w st) as [stds|] eqn:Hs;
    [|exfalso; exact (Hdef s atoms Hin eq_refl)].
  destruct (Hsome stds eq_refl) as (_ & _ & _ & Hadd).
  destruct (Hadd s atoms Hin) as (snap & Hsnap & Hmask).
  destruct (step_counters np_sum np_mean w st) as (Hcommit & _ & Hrefit & _).
  fold out in Hcommit, Hrefit.
  assert (Hr : attempts_refit (events_of out) = true).
  { apply existsb_exists. now exists (AddSpecificEnvironments s atoms). }
  destruct (Hcommit (Hrefit Hr)) as (_ & _ & Ho & _).
  pose proof (mask_index_arange _ _ _ _ Hmask) as Hiff.
  exists snap, stds.
  split; [exact Hsnap|]. split; [reflexivity|]. split; [exact Hne|].
  split; [exact Ho|]. split; [|exact Hiff].
  intros i Hi. now apply Hiff.
Qed.

(** C6.  A step with [dft_calls > 0] in which no score is above
    [dft_call_threshold] (on scores without NaN: in which the maximum
    score, [np.amax(stds)], is not above it) leaves the whole store as
    it was, whether it returns or raises: [dft_calls],
    [last_dft_call], the GP with its training set, and the model file;
    every call it makes is a report or a read. *)
Theorem idle_step_changes_nothing :
  forall (w : World) (st : Store),
    0 < dft_calls (self st) ->
    (forall stds,
       scores_at w st = Some stds ->
       (forall s, In s stds -> gtb s (dft_call_threshold (self st)) = false) \/
       ((forall s, In s stds -> is_nan s = false) /\
        exists m, Numpy.amax stds = Ok m /\
                  gtb m (dft_call_threshold (self st)) = false)) ->
    let out := step np_sum np_mean w st in
    store_of out = st /\
    dft_calls (self (store_of out)) = dft_calls (self st) /\
    last_dft_call (self (store_of out)) = last_dft_call (self st) /\
    training_structures (sparse_gp (self (store_of out)))
      = training_structures (sparse_gp (self st)) /\
    sparse_environments (sparse_gp (self (store_of out)))
      = sparse_environments (sparse_gp (self st)) /\
    model_file (store_of out) = model_file st /\
    forallb diagnostic (events_of out) = true.
Proof.
  intros w st Hsteady Hidle out.
  assert (Hne : dft_calls (self st) <> 0) by lia.
  destruct (steady_decision np_sum np_mean w st Hne) as (Hnone & Hsome & _).
  fold out in Hnone, Hsome.
  assert (Hframe : store_of out = st /\ forallb diagnostic (events_of out) = true).
  { destruct (scores_at w st) as [stds|] eqn:Hs; [|now apply Hnone].
    destruct (Hsome stds eq_refl) as (Hsame & _). apply Hsame.
    destruct (Hidle stds eq_refl) as [Hall|(Hnan & m & Hmax & Hm)].
    - now apply any_gt_scalar_false.
    - now rewrite <- (amax_exceeds stds _ m Hnan Hmax). }
  destruct Hframe as [Heq Hdiag]. rewrite Heq. repeat split; auto.
Qed.

(** C7.  The scores computed on line 166 are, atom by atom,
    [sqrt(|variance|) / sigma], with [sigma] the first
    hyperparameter and the variances the first row of the predicted
    local uncertainties; this holds for every variance vector.  The
    absolute value comes first, so the sign of a variance does not
    matter and the square root is NaN only for a NaN variance. *)
Theorem score_is_sqrt_abs_variance_over_sigma :
  (forall variances sigma,
     uncertainty_scores variances sigma
       = map (fun v => div (sqrt (abs v)) sigma) variances) /\
  (forall w structure st sigma rest variances lus,
     hyperparameters (sparse_gp (self st)) = sigma :: rest ->
     gp_local_uncertainties w = Ok (variances :: lus) ->
     predict_scores w structure st =
       (st, [PredictLocalUncertainties],
        Ok (map (fun v => div (sqrt (abs v)) sigma) variances,
            set_local_uncertainties structure (variances :: lus)))) /\
  (forall v, is_nan (sqrt (abs v)) = is_nan v) /\
  (forall v, sqrt (abs (opp v)) = sqrt (abs v)).
Proof.
  split; [exact uncertainty_scores_map|].
  split; [exact predict_scores_eq|].
  split; [exact sqrt_abs_is_nan|].
  intros v. now rewrite abs_opp.
Qed.

(** C8.  [step] runs its body once.  When the body returns, [step]
    returns the same; when the body raises [e], [step] appends one
    log record carrying [e] to what the body did and raises the same
    [e], with the store as the body left it.  No call is repeated:
    the calculator is asked for the energy at most once. *)
Theorem step_logs_and_reraises :
  forall (w : World) (st : Store),
    let body := step_body np_sum np_mean w st in
    let out := step np_sum np_mean w st in
    (forall e,
       result_of body = Raise e ->
       result_of out = Raise e /\
       events_of out
         = events_of body ++ [Log (LogException "LMPOTF ERROR" e)] /\
       store_of out = store_of body) /\
    (forall a, result_of body = Ok a -> out = body) /\
    (oracle_calls (events_of out) <= 1)%nat.
Proof.
  intros w st body out.
  destruct (step_counters np_sum np_mean w st) as (_ & _ & _ & _ & Hone).
  fold out in Hone. split; [|split; [|exact Hone]].
  - intros e He. subst out. unfold step, try_except. fold body.
    destruct body as [[st1 ev1] r]. cbn in He. subst r. now cbn.
  - intros a Ha. subst out. unfold step, try_except. fold body.
    destruct body as [[st1 ev1] r]. cbn in Ha. subst r. reflexivity.
Qed.

(** C9, as the code has it.  The constructor checks one thing, that
    [energy_correction] has one entry per type; it keeps the two
    thresholds as given, in whatever order they are.  And whatever
    the thresholds, a step hands atoms to the GP only after it has
    called the oracle. *)
Theorem init_accepts_any_threshold_order :
  (forall gp d rc t2n ec ft et stt call add dx sx mf ob om oi wb,
     length (atleast_1d ec) = length (atleast_1d t2n) ->
     exists o,
       LMPOTF_init gp d rc t2n ec ft et stt call add dx sx mf ob om oi wb
         (Ok tt) = Ok o /\
       dft_call_threshold o = call /\ dft_add_threshold o = add /\
       dft_calls o = 0 /\ last_dft_call o = -100) /\
  (forall gp d rc t2n ec ft et stt call add dx sx mf ob om oi wb lg,
     length (atleast_1d ec) <> length (atleast_1d t2n) ->
     LMPOTF_init gp d rc t2n ec ft et stt call add dx sx mf ob om oi wb lg
       = Raise AssertionError) /\
  (forall w st s atoms,
     In (AddSpecificEnvironments s atoms)
        (events_of (step np_sum np_mean w st)) ->
     invokes_oracle (events_of (step np_sum np_mean w st)) = true).
Proof.
  split; [|split].
  - intros gp d rc t2n ec ft et stt call add dx sx mf ob om oi wb Hlen.
    unfold LMPOTF_init. rewrite Hlen, Z.eqb_refl. cbn.
    eexists. repeat split.
  - intros gp d rc t2n ec ft et stt call add dx sx mf ob om oi wb lg Hlen.
    unfold LMPOTF_init.
    destruct (Z.eqb_spec (Z.of_nat (length (atleast_1d ec)))
                         (Z.of_nat (length (atleast_1d t2n)))) as [Heq|_];
      [|reflexivity].
    apply Nat2Z.inj in Heq. contradiction.
  - intros w st s atoms Hin.
    destruct (step_counters np_sum np_mean w st) as (Hcommit & _ & Hrefit & _).
    assert (Hr : attempts_refit (events_of (step np_sum np_mean w st)) = true).
    { apply existsb_exists. now exists (AddSpecificEnvironments s atoms). }
    now destruct (Hcommit (Hrefit Hr)) as (_ & _ & Ho & _).
Qed.

(** C10.  [transform_stress] returns the negated entries xx, xy, xz,
    yy, yz, zz of a 3x3 tensor, in that order; and when
    [stress_training] is set, a [run_dft] that returns has stored
    exactly this vector, computed from the stress the calculator
    gave, as the stresses of the structure. *)
Theorem run_dft_stores_transformed_stress :
  (forall xx xy xz yx yy yz zx zy zz,
     transform_stress [[xx; xy; xz]; [yx; yy; yz]; [zx; zy; zz]]
       = Ok [opp xx; opp xy; opp xz; opp yy; opp yz; opp zz]) /\
  (forall w cell x types step s st pe F s',
     stress_training (self st) = true ->
     result_of (run_dft np_sum w cell x types step s st) = Ok (pe, F, s') ->
     exists sigma,
       dft_stress w = Ok sigma /\
       transform_stress sigma = Ok (stresses s')).
Proof.
  split; [reflexivity | exact run_dft_stresses].
Qed.

End Claims.

(** * Further properties of the code *)

(** ** transform_stress and the array operations under it *)

Lemma getitem_nat {A} (a : list A) (i : nat) :
  Numpy.getitem a (Z.of_nat i) =
  match nth_error a i with Some v => Ok v | None => Raise IndexError end.
Proof.
  unfold Numpy.getitem.
  destruct (Z.ltb_spec (Z.of_nat i) 0) as [Hneg|_]; [lia|].
  destruct (Z.leb_spec 0 (Z.of_nat i)) as [_|Hneg]; [|lia].
  rewrite Nat2Z.id. cbn [andb].
  destruct (Z.ltb_spec (Z.of_nat i) (Z.of_nat (length a))) as [Hlt|Hge].
  - reflexivity.
  - assert (Hnone : nth_error a i = None) by (apply nth_error_None; lia).
    now rewrite Hnone.
Qed.

Lemma matrix_get_nat (m : matrix) (i j : nat) :
  matrix_get m (Z.of_nat i) (Z.of_nat j) =
  match nth_error m i with
  | Some row =>
      match nth_error row j with Some v => Ok v | None => Raise IndexError end
  | None => Raise IndexError
  end.
Proof.
  unfold matrix_get. rewrite getitem_nat.
  destruct (nth_error m i) as [row|]; cbn [result_bind]; [|reflexivity].
  apply getitem_nat.
Qed.

(** X1.  On a rectangular array [transform_stress] succeeds exactly
    when there are at least three rows and three columns, and then
    returns six numbers; on anything smaller it raises IndexError.  It
    reads the top-left 3x3 block only. *)
Theorem transform_stress_needs_3x3 :
  forall (m : matrix) (columns : nat),
    rectangular m columns ->
    ((3 <= length m)%nat /\ (3 <= columns)%nat ->
       exists xx xy xz yx yy yz zx zy zz r0 r1 r2 rows,
         m = (xx :: xy :: xz :: r0) :: (yx :: yy :: yz :: r1)
               :: (zx :: zy :: zz :: r2) :: rows /\
         transform_stress m
           = Ok [opp xx; opp xy; opp xz; opp yy; opp yz; opp zz]) /\
    ((length m < 3)%nat \/ (columns < 3)%nat ->
       transform_stress m = Raise IndexError).
Proof.
  intros m columns Hrect.
  assert (Hrow : forall i row, nth_error m i = Some row -> length row = columns).
  { intros i row Hi. apply Hrect. eapply nth_error_In; eauto. }
  unfold transform_stress.
  change 0 with (Z.of_nat 0). change 1 with (Z.of_nat 1).
  change 2 with (Z.of_nat 2). rewrite !matrix_get_nat.
  split.
  - intros [Hrows Hcols].
    destruct m as [|a [|b [|c rows]]]; cbn [length] in Hrows; try lia.
    pose proof (Hrow 0%nat a eq_refl) as Ha.
    pose proof (Hrow 1%nat b eq_refl) as Hb.
    pose proof (Hrow 2%nat c eq_refl) as Hc.
    destruct a as [|xx [|xy [|xz r0]]]; cbn [length] in Ha; try lia.
    destruct b as [|yx [|yy [|yz r1]]]; cbn [length] in Hb; try lia.
    destruct c as [|zx [|zy [|zz r2]]]; cbn [length] in Hc; try lia.
    exists xx, xy, xz, yx, yy, yz, zx, zy, zz, r0, r1, r2, rows.
    split; reflexivity.
  - intros Hsmall.
    destruct m as [|a rest]; [reflexivity|].
    pose proof (Hrow 0%nat a eq_refl) as Ha.
    destruct a as [|xx [|xy [|xz r0]]]; try reflexivity.
    destruct rest as [|b rest]; [reflexivity|].
    pose proof (Hrow 1%nat b eq_refl) as Hb.
    destruct b as [|yx [|yy [|yz r1]]]; cbn [length] in Ha, Hb; try lia.
    destruct rest as [|c rest]; [reflexivity|].
    pose proof (Hrow 2%nat c eq_refl) as Hc.
    destruct c as [|zx [|zy [|zz r2]]]; cbn [length] in Hc; try lia.
    cbn [length] in Hsmall. lia.
Qed.

(** ** __init__ *)

(** X2.  [__init__] takes [ntypes] from [type2number] after wrapping a
    scalar into a one-element array.  A scalar [energy_correction]
    (the default is the scalar 0.0) is accepted exactly when there is
    one type; with any other number of types the assertion fails,
    before logging is set up. *)
Theorem init_scalar_energy_correction :
  forall gp d rc t2n (c : float) ft et stt call add dx sx mf ob om oi wb lg,
    (length (atleast_1d t2n) = 1%nat ->
       forall u, lg = Ok u ->
       exists o,
         LMPOTF_init gp d rc t2n (inl c) ft et stt call add dx sx mf ob om oi
           wb lg = Ok o /\
         ntypes o = 1 /\ energy_correction o = [c] /\
         type2number o = atleast_1d t2n /\ sparse_gp o = gp /\
         dft_calls o = 0 /\ last_dft_call o = -100) /\
    (length (atleast_1d t2n) <> 1%nat ->
       LMPOTF_init gp d rc t2n (inl c) ft et stt call add dx sx mf ob om oi
         wb lg = Raise AssertionError).
Proof.
  intros. unfold LMPOTF_init. cbn [atleast_1d length]. split.
  - intros Hone u ->. rewrite Hone. cbn. eexists. repeat split.
  - intros Hmany.
    destruct (Z.eqb_spec (Z.of_nat 1) (Z.of_nat (length (atleast_1d t2n))))
      as [Heq|_]; [|reflexivity].
    apply Nat2Z.inj in Heq. congruence.
Qed.

(** ** Facts used below *)

Lemma sub_zero x : sub x zero = x.
Proof. destruct x as [[]|[]| |[] m e]; reflexivity. Qed.

Lemma leb_not_nan x y :
  leb x y = true -> is_nan x = false /\ is_nan y = false.
Proof.
  unfold leb, SFleb.
  destruct x as [sx|sx| |sx mx ex], y as [sy|sy| |sy my ey];
    cbn; try discriminate; auto.
Qed.

(** A score above the call threshold is above every add threshold
    that is at most the call threshold. *)
Lemma gtb_leb_trans s call add :
  gtb s call = true -> leb add call = true -> gtb s add = true.
Proof.
  intros Hs Hle.
  destruct (leb_not_nan _ _ Hle) as [Hadd Hcall].
  pose proof (gtb_false_key _ _ Hadd Hcall (leb_not_gtb _ _ Hle)) as H1.
  apply gtb_key in Hs as (Hsn & _ & H2).
  apply gtb_key. repeat split; auto. key_order.
Qed.

Lemma select_seq_length mask : forall k,
  length (Numpy.select (map Z.of_nat (seq k (length mask))) mask)
    = count_true mask.
Proof.
  unfold count_true.
  induction mask as [|b mask IH]; intros k; [reflexivity|].
  cbn [length seq map Numpy.select filter].
  destruct b; cbn [length]; now rewrite IH.
Qed.

Lemma select_seq_lower mask : forall k i,
  In i (Numpy.select (map Z.of_nat (seq k (length mask))) mask) ->
  Z.of_nat k <= i.
Proof.
  intros k i Hin. apply select_seq in Hin as (j & -> & _). lia.
Qed.

Lemma select_seq_sorted mask : forall k,
  StronglySorted Z.lt
    (Numpy.select (map Z.of_nat (seq k (length mask))) mask).
Proof.
  induction mask as [|b mask IH]; intros k; [constructor|].
  cbn [length seq map Numpy.select].
  destruct b; [|apply IH].
  constructor; [apply IH|].
  apply Forall_forall. intros i Hin.
  apply select_seq_lower in Hin. lia.
Qed.

(** [np.arange(n)[mask]] lists the selected indices in increasing
    order, one per set entry of the mask. *)
Lemma mask_index_arange_shape n mask atoms :
  Numpy.mask_index (Numpy.arange n) mask = Ok atoms ->
  Z.to_nat n = length mask /\
  length atoms = count_true mask /\
  StronglySorted Z.lt atoms.
Proof.
  unfold Numpy.mask_index, Numpy.arange.
  rewrite length_map, length_seq.
  destruct (Nat.eqb_spec (Z.to_nat n) (length mask)) as [Hlen|_];
    [|discriminate].
  intros [= <-]. rewrite Hlen.
  split; [reflexivity|].
  split; [apply select_seq_length | apply select_seq_sorted].
Qed.


(** ** run_dft *)

Section RunDft.

Variable np_sum : list float -> float.

(** X3.  What a [run_dft] that returns has done: the energy it
    returns is the calculator's energy minus the summed per-type
    corrections (the calculator's energy itself when that sum is 0),
    the forces are the calculator's, and each label is attached to the
    structure only under its training flag; the configuration in the
    structure is not touched. *)
Theorem run_dft_attaches_labels :
  forall w cell x types step s st pe F s',
    result_of (run_dft np_sum w cell x types step s st) = Ok (pe, F, s') ->
    exists e0 corr,
      dft_potential_energy w = Ok e0 /\
      Numpy.take (energy_correction (self st)) (minus_one types) = Ok corr /\
      pe = sub e0 (np_sum corr) /\
      (np_sum corr = zero -> pe = e0) /\
      dft_forces w = Ok F /\
      forces s' = (if force_training (self st) then F else forces s) /\
      energy s' = (if energy_training (self st) then [pe] else energy s) /\
      (stress_training (self st) = false -> stresses s' = stresses s) /\
      s_cell s' = s_cell s /\ s_species s' = s_species s /\
      s_positions s' = s_positions s /\ s_cutoff s' = s_cutoff s.
Proof.
  intros w cell x types step s st pe F s'.
  destruct (run_dft np_sum w cell x types step s st)
    as [[st' evs] r] eqn:Hrun.
  observe. unfold run_dft in Hrun.
  run_in Hrun; try discriminate.
  all: intros [= <- <- <-]; do 2 eexists;
    repeat (split; [reflexivity|]);
    (split; [intros ->; apply sub_zero|]);
    (split; [reflexivity|]);
    destruct (force_training (self st)), (energy_training (self st));
    repeat split; try reflexivity; intros; congruence.
Qed.

Lemma run_dft_commit_cases w cell x types step s st :
  let out := run_dft np_sum w cell x types step s st in
  commits_call (events_of out) = oracle_completes w (self st) types /\
  (oracle_completes w (self st) types = false ->
     store_of out = st /\ is_ok (result_of out) = false) /\
  (oracle_completes w (self st) types = true ->
     store_of out = record_call st step /\
     is_ok (result_of out) = is_ok (post_dft_callback w)).
Proof.
  intros out; subst out.
  destruct (run_dft np_sum w cell x types step s st)
    as [[st' evs] r] eqn:Hrun.
  observe. unfold run_dft in Hrun. unfold oracle_completes.
  run_in Hrun;
    repeat match goal with
           | H : ?t = _ |- context [?t] => rewrite H
           end;
    cbn; repeat split; intros; try discriminate; try reflexivity.
Qed.

(** X4.  [run_dft] writes the counters exactly when everything before
    line 268 has succeeded.  If a lookup, the calculator, the dump of
    the queried frame or the stress transformation raises, the store
    is as it was and [run_dft] raises, also when the calculator had
    already answered; once the counters are written, [run_dft] returns
    or raises as the post-DFT callback does. *)
Theorem run_dft_commit_point :
  forall w cell x types step s st,
    let out := run_dft np_sum w cell x types step s st in
    commits_call (events_of out) = oracle_completes w (self st) types /\
    (oracle_completes w (self st) types = false ->
       store_of out = st /\ is_ok (result_of out) = false) /\
    (oracle_completes w (self st) types = true ->
       store_of out = record_call st step /\
       is_ok (result_of out) = is_ok (post_dft_callback w)).
Proof.
  intros w cell x types step s st. apply run_dft_commit_cases.
Qed.

End RunDft.

(** ** The blocks of a step, once more *)

Lemma Forall_family {A} (fam : A -> bool) (P : A -> Prop) (l : list A) :
  (forall a, fam a = true -> P a) ->
  forallb fam l = true -> Forall P l.
Proof.
  intros Hfam Hl. apply Forall_forall. intros a Hin.
  apply Hfam. exact (proj1 (forallb_forall fam l) Hl a Hin).
Qed.

(** The wandb block makes wandb and thermo calls only; when it
    returns, it has logged the metrics it was given together with the
    histogram of the scores, under the step it was given. *)
Lemma telemetry_logs w step stds wandb_log q st :
  let out := telemetry w step stds wandb_log q st in
  forallb is_telemetry (events_of out) = true /\
  (is_ok (result_of out) = true ->
   exists metrics,
     In (WandbLog metrics step) (events_of out) /\
     In ("uncertainties"%string, MHistogram stds) metrics /\
     (forall kv, In kv wandb_log -> In kv metrics)).
Proof.
  intros out; subst out.
  destruct (telemetry w step stds wandb_log q st) as [[st' evs] r] eqn:Hrun.
  observe. unfold telemetry in Hrun.
  run_in Hrun; (split; [reflexivity|]); intros Hok; try discriminate Hok.
  all: eexists; split;
    [ cbn [In app]; repeat first [left; reflexivity | right]
    | split; [|intros kv Hkv]; rewrite ?in_app_iff; cbn [In]; tauto ].
Qed.

(** Hyperparameter optimization replaces the hyperparameters and the
    likelihood of the GP and nothing else; when the predicate says no,
    nothing at all. *)
Lemma maybe_optimize_model w step st :
  let out := maybe_optimize w step st in
  exists g',
    store_of out = mkStore (set_sparse_gp (self st) g') (model_file st) /\
    training_structures g' = training_structures (sparse_gp (self st)) /\
    sparse_environments g' = sparse_environments (sparse_gp (self st)) /\
    qr_current g' = qr_current (sparse_gp (self st)) /\
    (hyperparameters g' = hyperparameters (sparse_gp (self st)) \/
     (hyperparameter_optimization w = Ok true /\
      exists h l gr,
        optimize_hyperparameters w = Ok (h, l, gr) /\
        hyperparameters g' = h)) /\
    (hyperparameter_optimization w = Ok true ->
     is_ok (result_of out) = true ->
     exists h l gr lk,
       optimize_hyperparameters w = Ok (h, l, gr) /\
       gp_compute_likelihood_stable w = Ok lk /\
       hyperparameters g' = h /\
       In (Log (LogLikelihood (fst lk) l)) (events_of out) /\
       In (Log (LogHyperparameters h)) (events_of out)) /\
    (hyperparameter_optimization w = Ok false ->
     g' = sparse_gp (self st) /\ events_of out = [HyperoptPredicate step]).
Proof.
  intros out; subst out.
  destruct (maybe_optimize w step st) as [[st' evs] r] eqn:Hrun.
  observe. unfold maybe_optimize, compute_likelihood_stable,
    run_optimize_hyperparameters in Hrun.
  run_in Hrun; destruct st as [ctl file]; destruct ctl; cbn.
  all: eexists; split; [reflexivity|]; cbn.
  all: repeat split; auto; try discriminate; try congruence.
  all: try (right; split; [reflexivity|]; do 3 eexists; split; reflexivity).
  all: intros _ _; do 4 eexists; repeat split; cbn; auto 10.
Qed.

(** ** Where each call of a step can occur *)

Ltac summarize_calls :=
  repeat match goal with
  | H : run_dft ?f ?w ?c ?x ?t ?k ?s ?st = _ |- _ =>
      let Hs := fresh "Hdft" in
      let Hc := fresh "Hcommit" in
      let Hcb := fresh "Hcallback" in
      pose proof (run_dft_cases f w c x t k s st) as Hs;
      pose proof (run_dft_commit_cases f w c x t k s st) as Hc;
      cbv zeta in Hs, Hc; rewrite H in Hs, Hc; clear H;
      observe_in Hs; observe_in Hc;
      destruct Hc as (_ & Hc);
      destruct (oracle_completes w (self st) t);
      [ destruct Hc as (_ & Hc); destruct (Hc eq_refl) as (_ & Hcb)
      | destruct Hc as (Hc & _); destruct (Hc eq_refl) as (_ & Hcb) ];
      clear Hc; cbn [is_ok] in Hcb; try discriminate Hcb
  | H : telemetry ?w ?k ?stds ?l ?q ?st = _ |- _ =>
      let Hs := fresh "Htel" in
      pose proof (telemetry_logs w k stds l q st) as Hs;
      cbv zeta in Hs; rewrite H in Hs; clear H; observe_in Hs
  | H : maybe_optimize ?w ?k ?st = _ |- _ =>
      let Hs := fresh "Hopt" in
      pose proof (maybe_optimize_cases w k st) as Hs;
      cbv zeta in Hs; rewrite H in Hs; clear H; observe_in Hs
  end.

Ltac ok_facts :=
  repeat match goal with
         | H : ?t = Ok _ |- context [is_ok ?t] => rewrite H
         | H : (?a =? ?b) = _ |- context [?a =? ?b] => rewrite H
         end;
  cbn [is_ok].

Ltac place_event :=
  cbn [call_in_place]; ok_facts;
  try exact I;
  repeat match goal with |- _ /\ _ => split end;
  try reflexivity; try assumption;
  try (eexists; split; [eassumption | reflexivity]).

Section Calls.

Variable np_sum np_mean : list float -> float.

Lemma step_calls_in_place w st :
  Forall (call_in_place w st) (events_of (step np_sum np_mean w st)).
Proof.
  destruct (step np_sum np_mean w st) as [[st' evs] r] eqn:Hstep.
  observe. unfold_step.
  run_in Hstep; summarize_calls; cases.
  all: repeat match goal with
              | H : (dft_calls (self _) =? 0) = true |- _ =>
                  pose proof (proj1 (Z.eqb_eq _ _) H); revert H
              | H : (dft_calls (self _) =? 0) = false |- _ =>
                  pose proof (proj1 (Z.eqb_neq _ _) H); revert H
              end; intros.
  all: repeat first
         [ apply Forall_nil
         | apply Forall_cons
         | apply Forall_app; split
         | match goal with
           | H : forallb ?fam ?l = true |- Forall _ ?l =>
               apply (Forall_family fam _ l); [|exact H];
               let e := fresh "ev" in
               intros e; destruct e; cbn; try discriminate;
               try match goal with
                   | r : LogRecord |- _ => destruct r; cbn; try discriminate
                   end;
               intros _; place_event
           end ].
  all: try place_event.
  all: try (symmetry; assumption).
  all: try (intros Hname; discriminate Hname).
  all: try (intros _; do 3 eexists; split; [eassumption|]; split;
            [ unfold scores_at;
              repeat match goal with
                     | H : ?t = Ok _ |- context [match ?t with _ => _ end] =>
                         rewrite H
                     end; reflexivity
            | rewrite <- uncertainty_scores_map; split;
              [eassumption | reflexivity] ]).
Qed.


Ltac summarize_model :=
  repeat match goal with
  | H : run_dft ?f ?w ?c ?x ?t ?k ?s ?st = _ |- _ =>
      let Hs := fresh "Hdft" in
      pose proof (run_dft_cases f w c x t k s st) as Hs;
      cbv zeta in Hs; rewrite H in Hs; clear H; observe_in Hs;
      destruct Hs as (_ & _ & _ & Hs)
  | H : telemetry ?w ?k ?stds ?l ?q ?st = _ |- _ =>
      let Hs := fresh "Htel" in
      pose proof (telemetry_cases w k stds l q st) as Hs;
      cbv zeta in Hs; rewrite H in Hs; clear H; observe_in Hs;
      destruct Hs as (-> & Hs);
      apply diagnostic_events in Hs; destruct Hs as (_ & Hs & _)
  | H : maybe_optimize ?w ?k ?st = _ |- _ =>
      let Hs := fresh "Hopt" in
      let Hf := fresh "Hfam" in
      pose proof (maybe_optimize_model w k st) as Hs;
      pose proof (maybe_optimize_cases w k st) as Hf;
      cbv zeta in Hs, Hf; rewrite H in Hs, Hf; clear H;
      observe_in Hs; observe_in Hf;
      destruct Hf as (_ & _ & Hf);
      apply optimization_events in Hf; destruct Hf as (_ & Hf & _);
      destruct Hs as (? & -> & ? & ? & ? & Hs & _)
  end.

Ltac model_simpl :=
  cbn [sparse_gp self training_structures sparse_environments qr_current
       hyperparameters model_file set_sparse_gp add_environments
       record_call set_last_dft_call set_dft_calls fst snd];
  repeat match goal with
         | H : training_structures ?x = _
           |- context [training_structures ?x] => rewrite H
         | H : sparse_environments ?x = _
           |- context [sparse_environments ?x] => rewrite H
         | H : qr_current ?x = _ |- context [qr_current ?x] => rewrite H
         end;
  cbn [sparse_gp self training_structures sparse_environments qr_current
       hyperparameters model_file set_sparse_gp add_environments
       record_call set_last_dft_call set_dft_calls fst snd].

Ltac solve_in :=
  rewrite ?in_app_iff; cbn [In]; rewrite ?in_app_iff; cbn [In];
  solve [ repeat first [left; reflexivity | right] | tauto ].

(** What one step can do to the model and to the model file. *)
Lemma step_model w st :
  let out := step np_sum np_mean w st in
  let g := sparse_gp (self st) in
  let g' := sparse_gp (self (store_of out)) in
  (training_structures g' = training_structures g /\
   sparse_environments g' = sparse_environments g /\
   qr_current g' = qr_current g /\
   hyperparameters g' = hyperparameters g /\
   model_file (store_of out) = model_file st \/
   exists s,
     training_structures g' = training_structures g ++ [s] /\
     In (AddTrainingStructure s) (events_of out) /\
     (sparse_environments g' = sparse_environments g \/
      dft_calls (self st) = 0 /\
      sparse_environments g'
        = sparse_environments g ++ [(s, RandomEnvironments [16])] \/
      dft_calls (self st) <> 0 /\
      exists atoms,
        In (AddSpecificEnvironments s atoms) (events_of out) /\
        sparse_environments g'
          = sparse_environments g ++ [(s, SpecificEnvironments atoms)]) /\
     (hyperparameters g' = hyperparameters g \/
      dft_calls (self st) <> 0 /\
      hyperparameter_optimization w = Ok true /\
      exists h l gr,
        optimize_hyperparameters w = Ok (h, l, gr) /\
        hyperparameters g' = h) /\
     (model_file (store_of out) = model_file st \/
      model_file (store_of out)
        = Some (mkCheckpoint (model_fname (self st)) "LMPOTF" 0 g') /\
      qr_current g' = true)) /\
  (is_ok (result_of out) = true -> invokes_oracle (events_of out) = true ->
   model_file (store_of out)
     = Some (mkCheckpoint (model_fname (self st)) "LMPOTF" 0 g') /\
   qr_current g' = true /\
   exists s, training_structures g' = training_structures g ++ [s]).
Proof.
  intros out g g'; subst out g g'.
  destruct (step np_sum np_mean w st) as [[st' evs] r] eqn:Hstep.
  observe. unfold_step.
  run_in Hstep; summarize_model; cases;
    try match goal with
        | H : is_ok (Ok _) = false |- _ => discriminate H
        end;
    repeat match goal with
           | H : (dft_calls (self _) =? 0) = true |- _ =>
               apply Z.eqb_eq in H
           | H : (dft_calls (self _) =? 0) = false |- _ =>
               apply Z.eqb_neq in H
           end.
  all: split;
    [ | events; intros;
        first [ discriminate
              | model_simpl; split; [reflexivity|]; split; [reflexivity|];
                eexists; reflexivity ] ].
  all: try (left; repeat split; reflexivity).
  all: right; eexists; model_simpl.
  all: split; [reflexivity|]; split; [solve_in|].
  all: split;
    [ first [ left; reflexivity
            | right; left; split; [assumption | reflexivity]
            | right; right; split; [assumption|];
              eexists; split; [solve_in | reflexivity] ] |].
  all: split;
    [ first [ left; reflexivity
            | left; assumption
            | right; split; [assumption|]; split; [assumption|];
              assumption ] |].
  all: first [ left; reflexivity | right; split; reflexivity ].
Qed.


Lemma mask_index_arange_raise n mask e :
  Numpy.mask_index (Numpy.arange n) mask = Raise e ->
  e = IndexError /\ Z.to_nat n <> length mask.
Proof.
  unfold Numpy.mask_index, Numpy.arange.
  rewrite length_map, length_seq.
  destruct (Nat.eqb_spec (Z.to_nat n) (length mask)) as [|Hne];
    [discriminate|].
  intros [= <-]. now split.
Qed.

Ltac summarize_scores :=
  repeat match goal with
  | H : run_dft ?f ?w ?c ?x ?t ?k ?s ?st = _ |- _ =>
      let Hs := fresh "Hdft" in
      let Hc := fresh "Hcommit" in
      let Hfam := fresh "Hfam" in
      pose proof (run_dft_cases f w c x t k s st) as Hs;
      pose proof (run_dft_commit_cases f w c x t k s st) as Hc;
      cbv zeta in Hs, Hc; rewrite H in Hs, Hc; clear H;
      observe_in Hs; observe_in Hc;
      destruct Hs as (Hfam & _ & _ & Hs);
      pose proof (oracle_events _ Hfam) as (? & ? & _ & _);
      destruct Hc as (Hc & _ & ?)
  | H : telemetry ?w ?k ?stds ?l ?q ?st = _ |- _ =>
      let Hs := fresh "Htel" in
      let Hl := fresh "Hlogs" in
      let Hfam := fresh "Hfam" in
      pose proof (telemetry_cases w k stds l q st) as Hs;
      pose proof (telemetry_logs w k stds l q st) as Hl;
      cbv zeta in Hs, Hl; rewrite H in Hs, Hl; clear H;
      observe_in Hs; observe_in Hl;
      destruct Hs as (-> & Hfam); destruct Hl as (_ & Hl);
      pose proof (diagnostic_events _ Hfam) as (? & _ & ? & ? & _ & _)
  | H : maybe_optimize ?w ?k ?st = _ |- _ =>
      let Hs := fresh "Hopt" in
      let Hfam := fresh "Hfam" in
      pose proof (maybe_optimize_cases w k st) as Hs;
      cbv zeta in Hs; rewrite H in Hs; clear H; observe_in Hs;
      destruct Hs as (_ & _ & Hfam);
      pose proof (optimization_events _ Hfam) as (? & _ & ? & ? & _ & _)
  end.

(** What a step with [dft_calls <> 0] does with its scores. *)
Lemma steady_scores w st stds :
  dft_calls (self st) <> 0 ->
  scores_at w st = Some stds ->
  let out := step np_sum np_mean w st in
  (is_ok (result_of out) = true -> reaches_decision (events_of out) = true) /\
  (reaches_decision (events_of out) = true ->
   exists snap m,
     lmp_snapshot w = Ok snap /\
     Numpy.amax stds = Ok m /\
     In (Log (LogStep (snap_step snap))) (events_of out) /\
     In (Log (LogMaxUncertainty m)) (events_of out) /\
     (forall f, std_xyz_fname (self st) = Some f ->
        In (XyzWrite (f (snap_step snap)) (Some stds)) (events_of out)) /\
     (wandb (self st) = true -> is_ok (result_of out) = true ->
        exists metrics,
          In (WandbLog metrics (snap_step snap)) (events_of out) /\
          In ("uncertainties"%string, MHistogram stds) metrics /\
          In ("max_uncertainty"%string, MFloat m) metrics)) /\
  (attempts_refit (events_of out) = true ->
   exists snap,
     lmp_snapshot w = Ok snap /\ Z.to_nat (snap_natoms snap) = length stds) /\
  (commits_call (events_of out) = true ->
   attempts_refit (events_of out) = false ->
   is_ok (post_dft_callback w) = true ->
   exists snap,
     lmp_snapshot w = Ok snap /\
     Z.to_nat (snap_natoms snap) <> length stds /\
     result_of out = Raise IndexError).
Proof.
  intros Hsteady Hscores out; subst out. apply Z.eqb_neq in Hsteady.
  destruct (step np_sum np_mean w st) as [[st' evs] r] eqn:Hstep.
  observe. unfold_step.
  reduce_in Hstep. rewrite Hsteady in Hstep.
  run_in Hstep; summarize_scores; cases;
    try match goal with
        | H : is_ok (Ok _) = false |- _ => discriminate H
        end.
  all: unfold scores_at in Hscores;
    repeat match type of Hscores with
           | context [match ?t with _ => _ end] =>
               match goal with
               | H : t = _ |- _ => rewrite H in Hscores
               end
           end;
    try discriminate Hscores;
    try (injection Hscores as <-; rewrite <- uncertainty_scores_map).
  all: events.
  all: split; [|split; [|split]].
  all: try (intros; discriminate).
  all: try (intros; reflexivity).
  (* the scores were used: the step, the maximum, the dump, wandb *)
  all: try (intros _; do 2 eexists;
        split; [reflexivity|]; split; [eassumption|];
        split; [solve_in|]; split; [solve_in|]; split;
        [ let f := fresh in let Hf := fresh in
          intros f Hf;
          first [discriminate Hf | injection Hf as <-; solve_in]
        | let Hw := fresh in let Hr := fresh in
          intros Hw Hr; try discriminate Hw; try discriminate Hr;
          match goal with
          | H : is_ok (Ok _) = true -> exists _, _ |- _ =>
              let metrics := fresh "metrics" in
              let Hsub := fresh "Hsub" in
              destruct (H eq_refl) as (metrics & ? & ? & Hsub);
              exists metrics; split; [solve_in|]; split; [assumption|];
              apply Hsub; solve_in
          end ]).
  (* the training set was touched: the mask had the right length *)
  all: try (intros _; eexists; split; [reflexivity|];
        match goal with
        | H : Numpy.mask_index _ _ = Ok _ |- _ =>
            apply mask_index_arange_shape in H;
            destruct H as (-> & _); unfold Numpy.gt_scalar;
            now rewrite length_map
        end).
  (* counted but nothing added: the mask had the wrong length *)
  all: let Hc := fresh in let Hcb := fresh in
       intros Hc _ Hcb; rewrite ?orb_false_r in Hc;
       first
         [ match goal with
           | H : Numpy.mask_index _ _ = Raise _ |- _ =>
               let Hlen := fresh in
               apply mask_index_arange_raise in H;
               destruct H as (-> & Hlen);
               eexists; split; [reflexivity|]; split; [|reflexivity];
               unfold Numpy.gt_scalar in Hlen;
               now rewrite length_map in Hlen
           end
         | match goal with
           | H : oracle_completes _ _ _ = true -> _ |- _ =>
               let Hr := fresh in
               destruct (H Hc) as (_ & Hr); cbn [is_ok] in Hr; congruence
           end ].
Qed.

End Calls.

(** * What follows for a user of the controller *)

Section Consequences.

Variable np_sum np_mean : list float -> float.

(** ** A step changes the store only by counting a call *)

Lemma step_uncounted w st :
  let out := step np_sum np_mean w st in
  commits_call (events_of out) = false -> store_of out = st.
Proof.
  intros out; subst out.
  destruct (step np_sum np_mean w st) as [[st' evs] r] eqn:Hstep.
  observe. unfold_step.
  run_in Hstep; summarize; cases;
    try match goal with
        | H : is_ok (Ok _) = false |- _ => discriminate H
        end;
    events;
    let Hc := fresh in intros Hc; try discriminate Hc; reflexivity.
Qed.

(** ** What the calls of a step say about it *)

Lemma In_existsb {A} (p : A -> bool) (l : list A) (a : A) :
  In a l -> p a = true -> existsb p l = true.
Proof. intros Hin Hp. apply existsb_exists. now exists a. Qed.

Lemma call_placed w st ev :
  In ev (events_of (step np_sum np_mean w st)) -> call_in_place w st ev.
Proof.
  intros Hin.
  exact (proj1 (Forall_forall _ _) (step_calls_in_place np_sum np_mean w st) ev Hin).
Qed.

Lemma refit_counted w st ev :
  In ev (events_of (step np_sum np_mean w st)) -> is_refit ev = true ->
  attempts_refit (events_of (step np_sum np_mean w st)) = true /\
  commits_call (events_of (step np_sum np_mean w st)) = true /\
  dft_calls (self (store_of (step np_sum np_mean w st)))
    = dft_calls (self st) + 1.
Proof.
  intros Hin Hp.
  destruct (step_counters np_sum np_mean w st) as (Hc & _ & Hr & _).
  pose proof (In_existsb _ _ _ Hin Hp) as Hrefit.
  pose proof (Hr Hrefit) as Hcommit.
  split; [exact Hrefit|]. split; [exact Hcommit | apply (Hc Hcommit)].
Qed.

(** A step adds at most one structure to the training set, at its
    end, and at most one selection of sparse environments, for that
    structure. *)
Lemma step_appends w st :
  let out := step np_sum np_mean w st in
  let g := sparse_gp (self st) in
  let g' := sparse_gp (self (store_of out)) in
  (training_structures g' = training_structures g /\
   sparse_environments g' = sparse_environments g) \/
  (exists s,
     training_structures g' = training_structures g ++ [s] /\
     In (AddTrainingStructure s) (events_of out) /\
     dft_calls (self (store_of out)) = dft_calls (self st) + 1 /\
     (sparse_environments g' = sparse_environments g \/
      dft_calls (self st) = 0 /\
      sparse_environments g'
        = sparse_environments g ++ [(s, RandomEnvironments [16])] \/
      dft_calls (self st) <> 0 /\
      exists atoms,
        In (AddSpecificEnvironments s atoms) (events_of out) /\
        sparse_environments g'
          = sparse_environments g ++ [(s, SpecificEnvironments atoms)])).
Proof.
  intros out g g'; subst out g g'.
  destruct (step_model np_sum np_mean w st)
    as ([(Ht & He & _) | (s & Ht & Hin & He & _)] & _).
  - left. split; assumption.
  - right. exists s. split; [exact Ht|]. split; [exact Hin|].
    split; [|exact He].
    apply (refit_counted w st _ Hin). reflexivity.
Qed.

(** ** The configuration *)

Lemma same_config_refl o : same_config o o.
Proof. unfold same_config. repeat split. Qed.

Lemma keeps_config_refl st : keeps_config st st.
Proof. apply same_config_refl. Qed.

Lemma keeps_config_trans a b c :
  keeps_config a b -> keeps_config b c -> keeps_config a c.
Proof.
  unfold keeps_config, same_config. intros Hab Hbc.
  repeat match goal with H : _ /\ _ |- _ => destruct H end.
  repeat split; congruence.
Qed.

#[local] Hint Resolve keeps_config_refl keeps_config_trans : core.

Lemma step_keeps_config w : preserves keeps_config (step np_sum np_mean w).
Proof.
  unfold step, step_body, bootstrap, steady, telemetry, query,
    predict_scores, maybe_optimize, run_dft, save,
    add_training_structure, add_random_environments,
    add_specific_environments, update_matrices_QR,
    compute_likelihood_stable, run_optimize_hyperparameters.
  repeat frame_step; unfold keeps_config, same_config; cbn;
    repeat split; reflexivity.
Qed.

(** ** Array facts *)

Lemma getitem_raises {A} (a : list A) i e :
  Numpy.getitem a i = Raise e -> e = IndexError.
Proof.
  unfold Numpy.getitem.
  destruct ((0 <=? _) && _); [|congruence].
  destruct (nth_error _ _); congruence.
Qed.

Lemma getitem_out_of_range {A} (a : list A) i :
  i < - Z.of_nat (length a) \/ Z.of_nat (length a) <= i ->
  Numpy.getitem a i = Raise IndexError.
Proof.
  intros Hi. unfold Numpy.getitem.
  destruct (Z.ltb_spec i 0);
    destruct (Z.leb_spec 0 (i + Z.of_nat (length a)));
    destruct (Z.leb_spec 0 i);
    destruct (Z.ltb_spec i (Z.of_nat (length a)));
    destruct (Z.ltb_spec (i + Z.of_nat (length a)) (Z.of_nat (length a)));
    cbn [andb]; try reflexivity; lia.
Qed.

Lemma getitem_in_range {A} (a : list A) i :
  - Z.of_nat (length a) <= i < Z.of_nat (length a) ->
  is_ok (Numpy.getitem a i) = true.
Proof.
  intros Hi. unfold Numpy.getitem.
  set (j := if i <? 0 then i + Z.of_nat (length a) else i).
  assert (Hj : 0 <= j < Z.of_nat (length a))
    by (subst j; destruct (Z.ltb_spec i 0); lia).
  destruct (Z.leb_spec 0 j); [|lia].
  destruct (Z.ltb_spec j (Z.of_nat (length a))); [|lia].
  cbn [andb].
  destruct (nth_error a (Z.to_nat j)) eqn:Hnth; [reflexivity|].
  apply nth_error_None in Hnth. lia.
Qed.

Lemma take_out_of_range {A} (a : list A) idx i :
  In i idx ->
  i < - Z.of_nat (length a) \/ Z.of_nat (length a) <= i ->
  Numpy.take a idx = Raise IndexError.
Proof.
  intros Hin Hi. induction idx as [|j idx IH]; [contradiction|].
  cbn [Numpy.take]. destruct Hin as [->|Hin].
  - now rewrite getitem_out_of_range.
  - rewrite (IH Hin).
    destruct (Numpy.getitem a j) as [v|e] eqn:Hj; cbn; [reflexivity|].
    now rewrite (getitem_raises _ _ _ Hj).
Qed.

Lemma take_in_range {A} (a : list A) idx :
  (forall i, In i idx ->
             - Z.of_nat (length a) <= i < Z.of_nat (length a)) ->
  is_ok (Numpy.take a idx) = true.
Proof.
  induction idx as [|j idx IH]; intros Hall; [reflexivity|].
  cbn [Numpy.take].
  pose proof (getitem_in_range a j (Hall j (or_introl eq_refl))) as Hj.
  destruct (Numpy.getitem a j) as [v|e]; [|discriminate Hj].
  cbn [result_bind].
  assert (Hrest : is_ok (Numpy.take a idx) = true)
    by (apply IH; intros i Hi; apply Hall; now right).
  now destruct (Numpy.take a idx).
Qed.

Lemma slice_1_m6_length {A} (a : list A) :
  length (Numpy.slice a 1 (-6)) = (length a - 7)%nat.
Proof.
  unfold Numpy.slice, Numpy.clamp.
  change (1 <? 0) with false. change (-6 <? 0) with true. cbv iota.
  rewrite length_firstn, length_skipn. lia.
Qed.

Lemma reshape_rows3_ok a b :
  Numpy.reshape_rows3 a = Ok b -> b = a /\ (length a mod 3 = 0)%nat.
Proof.
  unfold Numpy.reshape_rows3.
  destruct (Z.eqb_spec (Z.of_nat (length a) mod 3) 0) as [Hmod|_];
    [|discriminate].
  intros [= <-]. split; [reflexivity|].
  apply Nat2Z.inj. rewrite Nat2Z.inj_mod. exact Hmod.
Qed.

Lemma amax_ok a m : Numpy.amax a = Ok m -> (0 < length a)%nat.
Proof. destruct a; [discriminate | cbn; lia]. Qed.

Lemma getitem_ok_nonempty {A} (a : list A) i v :
  Numpy.getitem a i = Ok v -> a <> [].
Proof.
  intros Hv ->. unfold Numpy.getitem in Hv. cbn [length] in Hv.
  destruct (if i <? 0 then i + Z.of_nat 0 else i) eqn:Hj; cbn in Hv;
    try discriminate Hv.
Qed.

(** ** Properties of the calls, the model and the counters *)

(** X5.  [save] writes the mapping coefficients of the current model
    under [model_fname], with contributor "LMPOTF" and kernel 0, and
    only after [update_matrices_QR] has returned.  A step leaves the
    model file as it was or leaves the checkpoint of the model it ends
    with, whose matrices are then up to date; a step that calls the
    oracle and returns always leaves that checkpoint. *)
Theorem model_saved_only_after_refit :
  forall (w : World) (st : Store),
    let out := step np_sum np_mean w st in
    let g' := sparse_gp (self (store_of out)) in
    let saved := Some (mkCheckpoint (model_fname (self st)) "LMPOTF" 0 g') in
    (forall fname contributor kernel_index,
       In (WriteMappingCoefficients fname contributor kernel_index)
          (events_of out) ->
       fname = model_fname (self st) /\
       contributor = "LMPOTF"%string /\ kernel_index = 0 /\
       is_ok (gp_update_matrices_QR w) = true) /\
    (model_file (store_of out) = model_file st \/
     model_file (store_of out) = saved /\ qr_current g' = true) /\
    (is_ok (result_of out) = true ->
     invokes_oracle (events_of out) = true ->
     model_file (store_of out) = saved /\ qr_current g' = true).
Proof.
  intros w st out g' saved; subst out g' saved.
  split; [|split].
  - intros fname contributor kernel_index Hin.
    exact (call_placed w st _ Hin).
  - destruct (step_model np_sum np_mean w st)
      as ([(_ & _ & _ & _ & Hfile) | (s & _ & _ & _ & _ & Hfile)] & _).
    + left. exact Hfile.
    + exact Hfile.
  - intros Hok Horacle.
    destruct (step_model np_sum np_mean w st) as (_ & Hdone).
    destruct (Hdone Hok Horacle) as (Hfile & Hqr & _).
    split; assumption.
Qed.

(** X6.  The only command a step sends to LAMMPS is
    [pair_coeff * * <model_fname>].  It is sent on a query step only,
    after the model file has been written; the first call, made while
    [dft_calls] is 0, sends none. *)
Theorem pair_coeff_reloads_saved_model :
  forall (w : World) (st : Store) (cmd : string),
    In (LammpsCommand cmd) (events_of (step np_sum np_mean w st)) ->
    cmd = ("pair_coeff * * " ++ model_fname (self st))%string /\
    dft_calls (self st) <> 0 /\
    is_ok (gp_write_mapping_coefficients w) = true.
Proof.
  intros w st cmd Hin. exact (call_placed w st _ Hin).
Qed.

(** X7.  The order of the update: the structure is added to the
    training set only after the post-DFT callback has returned, when
    the call is already counted; random environments are added only on
    the first call, and always 16 of them; specific environments only
    on later calls; both only after the structure was added; and the
    matrices are updated only after both additions. *)
Theorem refit_calls_in_order :
  forall (w : World) (st : Store),
    let out := step np_sum np_mean w st in
    (forall s,
       In (AddTrainingStructure s) (events_of out) ->
       is_ok (post_dft_callback w) = true /\
       dft_calls (self (store_of out)) = dft_calls (self st) + 1) /\
    (forall s n,
       In (AddRandomEnvironments s n) (events_of out) ->
       dft_calls (self st) = 0 /\ n = [16] /\
       is_ok (gp_add_training_structure w) = true) /\
    (forall s atoms,
       In (AddSpecificEnvironments s atoms) (events_of out) ->
       dft_calls (self st) <> 0 /\
       is_ok (gp_add_training_structure w) = true) /\
    (In UpdateMatricesQR (events_of out) ->
       is_ok (gp_add_training_structure w) = true /\
       (if dft_calls (self st) =? 0
        then is_ok (gp_add_random_environments w) = true
        else is_ok (gp_add_specific_environments w) = true)).
Proof.
  intros w st out; subst out. repeat apply conj.
  - intros s Hin. split.
    + exact (call_placed w st _ Hin).
    + apply (refit_counted w st _ Hin). reflexivity.
  - intros s n Hin. exact (call_placed w st _ Hin).
  - intros s atoms Hin. exact (call_placed w st _ Hin).
  - intros Hin. exact (call_placed w st _ Hin).
Qed.

(** X8.  The hyperparameters of the model change in one way only: on
    a query step, after the matrices were updated, when the
    [hyperparameter_optimization] predicate returned true, and then
    they are the ones the optimizer found.  The predicate is not asked
    on the first call. *)
Theorem hyperparameters_change_only_by_optimizer :
  forall (w : World) (st : Store),
    let out := step np_sum np_mean w st in
    let g := sparse_gp (self st) in
    let g' := sparse_gp (self (store_of out)) in
    (forall k,
       In (HyperoptPredicate k) (events_of out) ->
       dft_calls (self st) <> 0 /\
       is_ok (gp_update_matrices_QR w) = true) /\
    (In OptimizeHyperparameters (events_of out) ->
       dft_calls (self st) <> 0 /\
       is_ok (gp_update_matrices_QR w) = true) /\
    (hyperparameters g' = hyperparameters g \/
     dft_calls (self st) <> 0 /\
     hyperparameter_optimization w = Ok true /\
     exists h l gr,
       optimize_hyperparameters w = Ok (h, l, gr) /\
       hyperparameters g' = h).
Proof.
  intros w st out g g'; subst out g g'. repeat apply conj.
  - intros k Hin. exact (call_placed w st _ Hin).
  - intros Hin. exact (call_placed w st _ Hin).
  - destruct (step_model np_sum np_mean w st)
      as ([(_ & _ & _ & Hh & _) | (s & _ & _ & _ & Hh & _)] & _).
    + left. exact Hh.
    + exact Hh.
Qed.

(** X9.  A step never removes or reorders training data.  It leaves
    the training set and the sparse environments as they were, or
    appends the one structure it handed to [add_training_structure],
    in which case the call was counted; the sparse environments then
    grow by at most one selection for that same structure (16 random
    environments on the first call, the selected atoms later). *)
Theorem step_appends_the_queried_structure :
  forall (w : World) (st : Store),
    let out := step np_sum np_mean w st in
    let g := sparse_gp (self st) in
    let g' := sparse_gp (self (store_of out)) in
    (training_structures g' = training_structures g /\
     sparse_environments g' = sparse_environments g) \/
    (exists s,
       training_structures g' = training_structures g ++ [s] /\
       In (AddTrainingStructure s) (events_of out) /\
       dft_calls (self (store_of out)) = dft_calls (self st) + 1 /\
       (sparse_environments g' = sparse_environments g \/
        dft_calls (self st) = 0 /\
        sparse_environments g'
          = sparse_environments g ++ [(s, RandomEnvironments [16])] \/
        dft_calls (self st) <> 0 /\
        exists atoms,
          In (AddSpecificEnvironments s atoms) (events_of out) /\
          sparse_environments g'
            = sparse_environments g ++ [(s, SpecificEnvironments atoms)])).
Proof.
  intros w st. apply step_appends.
Qed.

(** X10.  Over any run the training set and the sparse environments
    only grow at the end: what was there at the start is a prefix of
    what is there at the end.  No more structures are added than calls
    are counted, and no more selections of environments than
    structures. *)
Theorem training_set_is_append_only :
  forall (ws : list World) (st : Store),
    exists added envs,
      training_structures
        (sparse_gp (self (run_steps np_sum np_mean ws st)))
        = training_structures (sparse_gp (self st)) ++ added /\
      sparse_environments
        (sparse_gp (self (run_steps np_sum np_mean ws st)))
        = sparse_environments (sparse_gp (self st)) ++ envs /\
      (length envs <= length added)%nat /\
      Z.of_nat (length added)
        <= dft_calls (self (run_steps np_sum np_mean ws st))
           - dft_calls (self st).
Proof.
  intros ws. induction ws as [|w ws IH]; intros st.
  - exists [], []. cbn [run_steps fold_left length].
    rewrite !app_nil_r. repeat split; lia.
  - change (run_steps np_sum np_mean (w :: ws) st)
      with (run_steps np_sum np_mean ws
              (store_of (step np_sum np_mean w st))).
    destruct (IH (store_of (step np_sum np_mean w st)))
      as (added & envs & Ht & He & Hlen & Hcalls).
    pose proof (step_dft_calls_le np_sum np_mean w st) as Hle.
    unfold dft_calls_le in Hle.
    rewrite Ht, He.
    destruct (step_appends w st)
      as [(Ht1 & He1) | (s & Ht1 & _ & Hc1 & He1)]; rewrite Ht1.
    + exists added, envs. rewrite He1. repeat split; lia.
    + destruct He1 as [He1 | [(_ & He1) | (_ & atoms & _ & He1)]];
        rewrite He1, <- ?app_assoc.
      * exists (s :: added), envs. cbn [app length].
        repeat split; lia.
      * exists (s :: added), ((s, RandomEnvironments [16]) :: envs).
        cbn [app length]. repeat split; lia.
      * exists (s :: added), ((s, SpecificEnvironments atoms) :: envs).
        cbn [app length]. repeat split; lia.
Qed.

(** X11.  A step changes the store only by counting a call: a step
    that does not reach the counter update in [run_dft] leaves the
    whole store exactly as it was, so every step either changes
    nothing or increments [dft_calls].  In particular, when the
    calculator raises, nothing is changed and the next call of [step]
    starts from the same state. *)
Theorem step_changes_nothing_unless_counted :
  forall (w : World) (st : Store),
    let out := step np_sum np_mean w st in
    (commits_call (events_of out) = false -> store_of out = st) /\
    (store_of out = st \/
     dft_calls (self (store_of out)) = dft_calls (self st) + 1) /\
    (is_ok (dft_potential_energy w) && is_ok (dft_forces w)
       && is_ok (dft_stress w) = false ->
     store_of out = st).
Proof.
  intros w st out; subst out.
  pose proof (step_uncounted w st) as Hsame. cbv zeta in Hsame.
  destruct (step_counters np_sum np_mean w st) as (Hc & _).
  split; [exact Hsame|]. split.
  - destruct (commits_call (events_of (step np_sum np_mean w st)));
      [right; now apply Hc | left; now apply Hsame].
  - intros Hfail. apply Hsame.
    destruct (commits_call (events_of (step np_sum np_mean w st)));
      [|reflexivity].
    destruct (Hc eq_refl) as (_ & _ & _ & Hall). congruence.
Qed.

(** X12.  The wandb block and the thermo reads it makes are reached
    only when a wandb object is configured, and never on the first
    call: while [dft_calls] is 0 nothing is sent to wandb. *)
Theorem telemetry_needs_wandb_and_a_counted_call :
  forall (w : World) (st : Store) (ev : Event),
    In ev (events_of (step np_sum np_mean w st)) ->
    is_telemetry ev = true ->
    wandb (self st) = true /\ dft_calls (self st) <> 0.
Proof.
  intros w st ev Hin Htel. pose proof (call_placed w st ev Hin) as Hplace.
  destruct ev; try discriminate Htel; exact Hplace.
Qed.

(** X13.  A step made with [dft_calls] not 0 that returns has reached
    the decision.  A step that reaches the decision has logged the
    thermo step and [np.amax(stds)], and, when [std_xyz_fname] is
    given, has written the frame with the scores as charges to the
    file named for that step. *)
Theorem steady_step_reports_max_score :
  forall (w : World) (st : Store) (stds : list float),
    dft_calls (self st) <> 0 ->
    scores_at w st = Some stds ->
    let out := step np_sum np_mean w st in
    (is_ok (result_of out) = true ->
     reaches_decision (events_of out) = true) /\
    (reaches_decision (events_of out) = true ->
     exists snap m,
       lmp_snapshot w = Ok snap /\
       Numpy.amax stds = Ok m /\
       In (Log (LogStep (snap_step snap))) (events_of out) /\
       In (Log (LogMaxUncertainty m)) (events_of out) /\
       (forall f,
          std_xyz_fname (self st) = Some f ->
          In (XyzWrite (f (snap_step snap)) (Some stds)) (events_of out))).
Proof.
  intros w st stds Hsteady Hscores out; subst out.
  destruct (steady_scores np_sum np_mean w st stds Hsteady Hscores)
    as (Hok & Hreach & _).
  split; [exact Hok|]. intros Hdec.
  destruct (Hreach Hdec) as (snap & m & Hsnap & Hmax & Hstep & Hlog & Hxyz & _).
  exists snap, m. repeat split; assumption.
Qed.

(** X14.  With wandb configured, a step made with [dft_calls] not 0
    that returns has logged to wandb under the thermo step, and the
    metrics carry [max_uncertainty], which is [np.amax(stds)], and the
    histogram of the scores under [uncertainties]. *)
Theorem wandb_log_carries_the_scores :
  forall (w : World) (st : Store) (stds : list float),
    dft_calls (self st) <> 0 ->
    scores_at w st = Some stds ->
    wandb (self st) = true ->
    let out := step np_sum np_mean w st in
    is_ok (result_of out) = true ->
    exists snap m metrics,
      lmp_snapshot w = Ok snap /\
      Numpy.amax stds = Ok m /\
      In (WandbLog metrics (snap_step snap)) (events_of out) /\
      In ("uncertainties"%string, MHistogram stds) metrics /\
      In ("max_uncertainty"%string, MFloat m) metrics.
Proof.
  intros w st stds Hsteady Hscores Hwandb out Hok; subst out.
  destruct (steady_scores np_sum np_mean w st stds Hsteady Hscores)
    as (Hdec & Hreach & _).
  destruct (Hreach (Hdec Hok))
    as (snap & m & Hsnap & Hmax & _ & _ & _ & Hlog).
  destruct (Hlog Hwandb Hok) as (metrics & Hin & Hu & Hm).
  exists snap, m, metrics. repeat split; assumption.
Qed.

(** X15.  When the model predicts an empty row of variances, the
    scores are empty, [np.amax] raises, and the step stops before the
    decision: it raises, leaves the store as it was and has made
    reporting calls only. *)
Theorem empty_scores_stop_the_step :
  forall (w : World) (st : Store),
    dft_calls (self st) <> 0 ->
    scores_at w st = Some [] ->
    let out := step np_sum np_mean w st in
    is_ok (result_of out) = false /\
    reaches_decision (events_of out) = false /\
    store_of out = st /\
    forallb diagnostic (events_of out) = true.
Proof.
  intros w st Hsteady Hscores out; subst out.
  destruct (steady_scores np_sum np_mean w st [] Hsteady Hscores)
    as (Hdec & Hreach & _).
  destruct (steady_decision np_sum np_mean w st Hsteady) as (_ & Hsome & _).
  destruct (Hsome [] Hscores) as (Hidle & _).
  assert (Hnot : reaches_decision
                   (events_of (step np_sum np_mean w st)) = false).
  { destruct (reaches_decision (events_of (step np_sum np_mean w st)));
      [|reflexivity].
    destruct (Hreach eq_refl) as (_ & m & _ & Hmax & _).
    discriminate Hmax. }
  split.
  - destruct (is_ok (result_of (step np_sum np_mean w st)));
      [|reflexivity].
    rewrite (Hdec eq_refl) in Hnot. discriminate Hnot.
  - split; [exact Hnot|]. apply Hidle. reflexivity.
Qed.

(** X16.  When the number of atoms LAMMPS reports differs from the
    number of scores, a query step fails at the selection of the atoms
    to add, after [run_dft]: nothing is added to the model and no
    model file is written, although the call is already counted; when
    the oracle call and the callback succeeded, the step raises
    IndexError. *)
Theorem atom_count_mismatch_counts_without_training :
  forall (w : World) (st : Store) (stds : list float) (snap : Snapshot),
    dft_calls (self st) <> 0 ->
    scores_at w st = Some stds ->
    lmp_snapshot w = Ok snap ->
    Z.to_nat (snap_natoms snap) <> length stds ->
    let out := step np_sum np_mean w st in
    attempts_refit (events_of out) = false /\
    training_structures (sparse_gp (self (store_of out)))
      = training_structures (sparse_gp (self st)) /\
    sparse_environments (sparse_gp (self (store_of out)))
      = sparse_environments (sparse_gp (self st)) /\
    model_file (store_of out) = model_file st /\
    (commits_call (events_of out) = true ->
     is_ok (post_dft_callback w) = true ->
     result_of out = Raise IndexError /\
     dft_calls (self (store_of out)) = dft_calls (self st) + 1).
Proof.
  intros w st stds snap Hsteady Hscores Hsnap Hlen out; subst out.
  destruct (steady_scores np_sum np_mean w st stds Hsteady Hscores)
    as (_ & _ & Hrefit & Hraise).
  assert (Hnot : attempts_refit
                   (events_of (step np_sum np_mean w st)) = false).
  { destruct (attempts_refit (events_of (step np_sum np_mean w st)));
      [|reflexivity].
    destruct (Hrefit eq_refl) as (snap' & Hsnap' & Hsame).
    rewrite Hsnap in Hsnap'. injection Hsnap' as <-. contradiction. }
  split; [exact Hnot|].
  destruct (step_model np_sum np_mean w st)
    as ([(Ht & He & _ & _ & Hfile) | (s & _ & Hin & _)] & _).
  - repeat (split; [assumption|]).
    intros Hcommit Hcb.
    destruct (Hraise Hcommit Hnot Hcb) as (_ & _ & _ & Hres).
    split; [exact Hres|].
    destruct (step_counters np_sum np_mean w st) as (Hc & _).
    now apply Hc.
  - destruct (refit_counted w st _ Hin eq_refl) as (Hyes & _).
    rewrite Hyes in Hnot. discriminate Hnot.
Qed.

(** X17.  When [dft_add_threshold] is at most [dft_call_threshold],
    as with the defaults, every query hands at least one atom to
    [add_specific_environments]: an atom whose score made the step
    query is among them. *)
Theorem query_adds_an_atom_when_add_le_call :
  forall (w : World) (st : Store) (s : Structure) (atoms : list Z),
    leb (dft_add_threshold (self st)) (dft_call_threshold (self st))
      = true ->
    In (AddSpecificEnvironments s atoms)
       (events_of (step np_sum np_mean w st)) ->
    exists stds i sc,
      scores_at w st = Some stds /\
      In i atoms /\
      nth_error stds (Z.to_nat i) = Some sc /\
      gtb sc (dft_call_threshold (self st)) = true.
Proof.
  intros w st s atoms Hle Hin.
  destruct (call_placed w st _ Hin) as (Hsteady & _).
  destruct (steady_decision np_sum np_mean w st Hsteady)
    as (_ & Hsome & Hnn).
  destruct (scores_at w st) as [stds|] eqn:Hscores;
    [|now destruct (Hnn s atoms Hin)].
  destruct (Hsome stds eq_refl) as (Hidle & _ & _ & Hatoms).
  destruct (Hatoms s atoms Hin) as (snap & Hsnap & Hmask).
  destruct (Numpy.any
              (Numpy.gt_scalar stds (dft_call_threshold (self st))))
    eqn:Hcall.
  - apply any_gt_scalar_true in Hcall as (sc & Hsc & Hgt).
    apply In_nth_error in Hsc as (n & Hn).
    assert (Hlt : (n < length stds)%nat)
      by (apply nth_error_Some; congruence).
    destruct (mask_index_arange_shape _ _ _ Hmask) as (Hshape & _).
    unfold Numpy.gt_scalar in Hshape. rewrite length_map in Hshape.
    exists stds, (Z.of_nat n), sc. split; [reflexivity|].
    rewrite Nat2Z.id. split; [|split; assumption].
    apply (mask_index_arange _ _ _ _ Hmask). split; [lia|].
    exists sc. rewrite Nat2Z.id. split; [exact Hn|].
    exact (gtb_leb_trans _ _ _ Hgt Hle).
  - destruct (Hidle eq_refl) as (_ & Hdiag).
    pose proof (proj1 (forallb_forall _ _) Hdiag _ Hin) as Hbad.
    discriminate Hbad.
Qed.

(** X18.  [step] never assigns to the configuration: the descriptors,
    cutoff, type table, energy corrections, both thresholds, the three
    training flags, the file names, the optimizer settings and the
    wandb object are after any run what [__init__] made them. *)
Theorem configuration_is_never_written :
  (forall (w : World) (st : Store),
     same_config (self st) (self (store_of (step np_sum np_mean w st)))) /\
  (forall (ws : list World) (st : Store),
     same_config (self st) (self (run_steps np_sum np_mean ws st))).
Proof.
  split.
  - intros w st. apply (step_keeps_config w st).
  - intros ws. induction ws as [|w ws IH]; intros st.
    + apply same_config_refl.
    + change (run_steps np_sum np_mean (w :: ws) st)
        with (run_steps np_sum np_mean ws
                (store_of (step np_sum np_mean w st))).
      apply (keeps_config_trans _ _ _ (step_keeps_config w st)).
      apply IH.
Qed.

(** X19.  The [n_added] a query step logs is the number of scores
    strictly above [dft_add_threshold]. *)
Theorem n_added_counts_scores_above_add_threshold :
  forall (w : World) (st : Store) (v : Metric),
    In (Log (LogQuantity "n_added" v))
       (events_of (step np_sum np_mean w st)) ->
    exists stds,
      scores_at w st = Some stds /\
      v = MInt (Z.of_nat
                  (count_true
                     (Numpy.gt_scalar stds (dft_add_threshold (self st))))).
Proof.
  intros w st v Hin.
  destruct (call_placed w st _ Hin eq_refl)
    as (snap & stds & atoms & _ & Hscores & Hmask & ->).
  exists stds. split; [exact Hscores|].
  destruct (mask_index_arange_shape _ _ _ Hmask) as (_ & -> & _).
  reflexivity.
Qed.

(** X20.  [run_dft] looks the LAMMPS types up in [type2number] before
    anything else.  A type above the number of entries (or at or
    below its negative) makes it raise IndexError at once: the
    calculator is not asked and the store is untouched.  Types from
    [1 - n] to [n], for [n] entries, pass the lookup, so type 0 and
    small negative types are read from the end of the table. *)
Theorem run_dft_rejects_unknown_type :
  forall (w : World) (cell : matrix) (x : list float) (types : list Z)
         (step : Z) (s : Structure) (st : Store),
    let n := Z.of_nat (length (type2number (self st))) in
    (forall t,
       In t types -> (t <= - n \/ n < t) ->
       run_dft np_sum w cell x types step s st = (st, [], Raise IndexError)) /\
    ((forall t, In t types -> - n < t <= n) ->
     is_ok (Numpy.take (type2number (self st)) (minus_one types)) = true).
Proof.
  intros w cell x types step s st n; subst n. split.
  - intros t Hin Ht.
    assert (Htake : Numpy.take (type2number (self st)) (minus_one types)
                    = Raise IndexError).
    { apply (take_out_of_range _ _ (t - 1)).
      - unfold minus_one. apply in_map_iff. now exists t.
      - lia. }
    unfold run_dft. cbv beta iota zeta delta [bind get_self lift].
    rewrite Htake. reflexivity.
  - intros Hall. apply take_in_range. intros i Hi.
    unfold minus_one in Hi. apply in_map_iff in Hi as (t & <- & Ht).
    specialize (Hall t Ht). lia.
Qed.

(** X21.  The query branch checks the predictions before it calls the
    oracle.  The oracle is asked only when [predict_DTC] gave a
    non-empty mean vector whose force part [mean_efs[1:-6]] reshapes
    to rows of three, and a variance vector with at least one force
    row: more than 7 entries, with [variance_efs[1:-6]] a multiple of
    three long. *)
Theorem query_checks_predictions_before_oracle :
  forall (w : World) (snap : Snapshot) (cell : matrix)
         (structure : Structure) (stds : list float)
         (wandb_log : list (string * Metric)) (st : Store),
    invokes_oracle
      (events_of (query np_sum np_mean w snap cell structure stds
                    wandb_log st)) = true ->
    exists mean var,
      gp_predict_DTC w = Ok (mean, var) /\
      mean <> [] /\
      ((length mean - 7) mod 3 = 0)%nat /\
      (7 < length var)%nat /\
      ((length var - 7) mod 3 = 0)%nat.
Proof.
  intros w snap cell structure stds wandb_log st.
  destruct (query np_sum np_mean w snap cell structure stds wandb_log st)
    as [[st' evs] r] eqn:Hrun.
  observe.
  unfold query, save, add_training_structure, add_specific_environments,
    update_matrices_QR in Hrun.
  run_in Hrun; summarize; cases;
    try match goal with
        | H : is_ok (Ok _) = false |- _ => discriminate H
        end;
    events; let Ho := fresh in intros Ho; try discriminate Ho.
  all: match goal with
       | H : gp_predict_DTC _ = Ok (?mean, ?var) |- _ => exists mean, var
       end.
  all: split; [reflexivity|].
  all: repeat match goal with
              | H : Numpy.reshape_rows3 _ = Ok _ |- _ =>
                  apply reshape_rows3_ok in H; destruct H as (-> & H)
              | H : Numpy.amax _ = Ok _ |- _ => apply amax_ok in H
              | H : Numpy.getitem ?a 0 = Ok _ |- _ =>
                  apply getitem_ok_nonempty in H
              end.
  all: unfold Numpy.sqrt, Numpy.abs in *;
    rewrite ?length_map, ?slice_1_m6_length in *.
  all: repeat split; try assumption; try lia.
Qed.

End Consequences.

(** ** The claims on the two-atom scenario *)

Import Scenario.

Lemma bootstrap_invokes_oracle_witness :
  dft_calls (self store0) = 0 /\
  invokes_oracle (events_of (step seq_sum seq_mean quiet store0)) = true /\
  dft_calls (self (store_of (step seq_sum seq_mean quiet store0))) = 1.
Proof.
  split; [reflexivity|].
  destruct (bootstrap_invokes_oracle seq_sum seq_mean quiet store0 eq_refl)
    as (_ & _ & Hdone).
  apply Hdone. vm_compute. reflexivity.
Defined.

Lemma dft_calls_counts_completed_oracle_calls_witness :
  is_ok (result_of (step seq_sum seq_mean uncertain store1)) = true /\
  invokes_oracle (events_of (step seq_sum seq_mean uncertain store1)) = true /\
  dft_calls (self (store_of (step seq_sum seq_mean uncertain store1)))
    = dft_calls (self store1) + 1.
Proof.
  assert (Hr : is_ok (result_of (step seq_sum seq_mean uncertain store1)) = true)
    by (vm_compute; reflexivity).
  assert (Ho : invokes_oracle
                 (events_of (step seq_sum seq_mean uncertain store1)) = true)
    by (vm_compute; reflexivity).
  split; [exact Hr|]. split; [exact Ho|].
  destruct (dft_calls_counts_completed_oracle_calls seq_sum seq_mean)
    as (_ & Hstep).
  destruct (Hstep uncertain store1) as (_ & _ & Hok & _).
  exact (Hok Hr Ho).
Defined.

(** C2 as stated fails: the step below decides to query and calls the
    oracle, the oracle raises, and [dft_calls] stays at 1. *)
Lemma failed_oracle_call_is_not_counted :
  enters_query (events_of (step seq_sum seq_mean oracle_fails store1)) = true /\
  invokes_oracle (events_of (step seq_sum seq_mean oracle_fails store1)) = true /\
  dft_calls (self (store_of (step seq_sum seq_mean oracle_fails store1)))
    = dft_calls (self store1) /\
  dft_calls (self (store_of (step seq_sum seq_mean oracle_fails store1)))
    <> dft_calls (self store1) + 1.
Proof.
  vm_compute. repeat split; try reflexivity. discriminate.
Qed.

Lemma counters_written_after_oracle_before_refit_witness :
  attempts_refit (events_of (step seq_sum seq_mean refit_fails store1)) = true /\
  dft_calls (self (store_of (step seq_sum seq_mean refit_fails store1)))
    = dft_calls (self store1) + 1 /\
  exists snap,
    lmp_snapshot refit_fails = Ok snap /\
    last_dft_call (self (store_of (step seq_sum seq_mean refit_fails store1)))
      = snap_step snap.
Proof.
  assert (Hr : attempts_refit
                 (events_of (step seq_sum seq_mean refit_fails store1)) = true)
    by (vm_compute; reflexivity).
  split; [exact Hr|].
  destruct (counters_written_after_oracle_before_refit seq_sum seq_mean
              refit_fails store1) as (_ & Hrefit).
  exact (Hrefit Hr).
Defined.

(** C3 as stated fails: in the step below the oracle call succeeds and
    [update_matrices_QR] raises; the step raises, and both counters
    have been written all the same. *)
Lemma refit_failure_keeps_counter_update :
  result_of (step seq_sum seq_mean refit_fails store1)
    = Raise (ExternalError "update_matrices_QR") /\
  invokes_oracle (events_of (step seq_sum seq_mean refit_fails store1)) = true /\
  dft_calls (self store1) = 1 /\
  dft_calls (self (store_of (step seq_sum seq_mean refit_fails store1))) = 2 /\
  last_dft_call (self store1) = -100 /\
  last_dft_call (self (store_of (step seq_sum seq_mean refit_fails store1))) = 7.
Proof.
  vm_compute. repeat split; reflexivity.
Qed.

Lemma query_decision_strict_threshold_witness :
  0 < dft_calls (self store1) /\
  scores_at uncertain store1 = Some [lit_0_01; lit_0_001] /\
  reaches_decision (events_of (step seq_sum seq_mean uncertain store1)) = true /\
  (enters_query (events_of (step seq_sum seq_mean uncertain store1)) = true <->
   exists s, In s [lit_0_01; lit_0_001] /\
             gtb s (dft_call_threshold (self store1)) = true).
Proof.
  assert (Hpos : 0 < dft_calls (self store1)) by (vm_compute; reflexivity).
  assert (Hs : scores_at uncertain store1 = Some [lit_0_01; lit_0_001])
    by (vm_compute; reflexivity).
  assert (Hr : reaches_decision
                 (events_of (step seq_sum seq_mean uncertain store1)) = true)
    by (vm_compute; reflexivity).
  split; [exact Hpos|]. split; [exact Hs|]. split; [exact Hr|].
  destruct (query_decision_strict_threshold seq_sum seq_mean)
    as (_ & _ & _ & _ & Hstep).
  destruct (Hstep uncertain store1 _ Hpos Hs) as (_ & Hiff).
  exact (Hiff Hr).
Defined.

Lemma added_atoms_exceed_add_threshold_witness :
  exists snap stds,
    lmp_snapshot uncertain = Ok snap /\
    scores_at uncertain store1 = Some stds /\
    dft_calls (self store1) <> 0 /\
    invokes_oracle (events_of (step seq_sum seq_mean uncertain store1)) = true /\
    (forall i, In i [0] -> 0 <= i < snap_natoms snap) /\
    (forall i,
       In i [0] <->
       0 <= i < snap_natoms snap /\
       exists sc,
         nth_error stds (Z.to_nat i) = Some sc /\
         gtb sc (dft_add_threshold (self store1)) = true).
Proof.
  assert (Hin : exists s,
             In (AddSpecificEnvironments s [0])
                (events_of (step seq_sum seq_mean uncertain store1))).
  { vm_compute. eexists.
    repeat first [left; reflexivity | right]. }
  destruct Hin as [s Hin].
  exact (added_atoms_exceed_add_threshold seq_sum seq_mean
           uncertain store1 s [0] Hin).
Defined.

Lemma idle_step_changes_nothing_witness :
  0 < dft_calls (self store1) /\
  scores_at quiet store1 = Some [lit_0_001; lit_0_001] /\
  Numpy.amax [lit_0_001; lit_0_001] = Ok lit_0_001 /\
  gtb lit_0_001 (dft_call_threshold (self store1)) = false /\
  store_of (step seq_sum seq_mean quiet store1) = store1 /\
  forallb diagnostic (events_of (step seq_sum seq_mean quiet store1)) = true.
Proof.
  assert (Hpos : 0 < dft_calls (self store1)) by (vm_compute; reflexivity).
  assert (Hs : scores_at quiet store1 = Some [lit_0_001; lit_0_001])
    by (vm_compute; reflexivity).
  assert (Hmax : Numpy.amax [lit_0_001; lit_0_001] = Ok lit_0_001)
    by (vm_compute; reflexivity).
  assert (Hm : gtb lit_0_001 (dft_call_threshold (self store1)) = false)
    by (vm_compute; reflexivity).
  repeat (split; [assumption|]).
  assert (Hidle : forall stds,
             scores_at quiet store1 = Some stds ->
             (forall s, In s stds ->
                        gtb s (dft_call_threshold (self store1)) = false) \/
             ((forall s, In s stds -> is_nan s = false) /\
              exists m, Numpy.amax stds = Ok m /\
                        gtb m (dft_call_threshold (self store1)) = false)).
  { intros stds Hstds. rewrite Hs in Hstds. injection Hstds as <-.
    right. split.
    - intros s [<-|[<-|[]]]; vm_compute; reflexivity.
    - exists lit_0_001. split; assumption. }
  destruct (idle_step_changes_nothing seq_sum seq_mean quiet store1 Hpos Hidle)
    as (Hsame & _ & _ & _ & _ & _ & Hdiag).
  split; [exact Hsame | exact Hdiag].
Defined.

Lemma score_is_sqrt_abs_variance_over_sigma_witness :
  hyperparameters (sparse_gp (self store1)) = [one; one] /\
  gp_local_uncertainties uncertain = Ok [[var_high; var_low]] /\
  predict_scores uncertain (new_Structure [] [] [] zero []) store1 =
    (store1, [PredictLocalUncertainties],
     Ok (map (fun v => div (sqrt (abs v)) one) [var_high; var_low],
         set_local_uncertainties (new_Structure [] [] [] zero [])
           [[var_high; var_low]])).
Proof.
  split; [reflexivity|]. split; [reflexivity|].
  destruct score_is_sqrt_abs_variance_over_sigma as (_ & Hstep & _).
  apply (Hstep uncertain (new_Structure [] [] [] zero []) store1
           one [one] [var_high; var_low] []); reflexivity.
Defined.

Lemma step_logs_and_reraises_witness :
  result_of (step_body seq_sum seq_mean oracle_fails store1)
    = Raise (ExternalError "SCF did not converge") /\
  result_of (step seq_sum seq_mean oracle_fails store1)
    = Raise (ExternalError "SCF did not converge") /\
  events_of (step seq_sum seq_mean oracle_fails store1)
    = events_of (step_body seq_sum seq_mean oracle_fails store1)
      ++ [Log (LogException "LMPOTF ERROR"
                 (ExternalError "SCF did not converge"))] /\
  store_of (step seq_sum seq_mean oracle_fails store1)
    = store_of (step_body seq_sum seq_mean oracle_fails store1).
Proof.
  assert (Hbody : result_of (step_body seq_sum seq_mean oracle_fails store1)
                  = Raise (ExternalError "SCF did not converge"))
    by (vm_compute; reflexivity).
  split; [exact Hbody|].
  destruct (step_logs_and_reraises seq_sum seq_mean oracle_fails store1)
    as (Hraise & _).
  exact (Hraise _ Hbody).
Defined.

Lemma init_accepts_any_threshold_order_witness :
  length (atleast_1d (A:=float) (inl zero)) = length (atleast_1d (A:=Z) (inl 14)) /\
  exists o,
    controller lit_0_001 lit_0_0025 = Ok o /\
    dft_call_threshold o = lit_0_001 /\ dft_add_threshold o = lit_0_0025 /\
    dft_calls o = 0 /\ last_dft_call o = -100.
Proof.
  split; [reflexivity|].
  destruct (init_accepts_any_threshold_order seq_sum seq_mean) as (Hinit & _).
  apply Hinit. reflexivity.
Defined.

(** C9 as stated fails: a call threshold of 0.001 below an add
    threshold of 0.0025 is accepted. *)
Lemma init_accepts_call_below_add :
  gtb lit_0_0025 lit_0_001 = true /\
  exists o,
    controller lit_0_001 lit_0_0025 = Ok o /\
    dft_call_threshold o = lit_0_001 /\ dft_add_threshold o = lit_0_0025.
Proof.
  split; [vm_compute; reflexivity|].
  eexists. repeat split.
Qed.

Lemma run_dft_stores_transformed_stress_witness :
  stress_training (self store1) = true /\
  exists sigma,
    dft_stress uncertain = Ok sigma /\
    transform_stress sigma
      = Ok (map opp [of_Z 1; of_Z 2; of_Z 3; of_Z 4; of_Z 5; of_Z 6]).
Proof.
  split; [reflexivity|].
  destruct (run_dft_stores_transformed_stress seq_sum) as (_ & Hrun).
  assert (Hres : exists pe F s',
             result_of (run_dft seq_sum uncertain [] (snap_x snapshot)
                          (snap_types snapshot) 7
                          (new_Structure [] [] [] zero []) store1)
               = Ok (pe, F, s') /\
             stresses s'
               = map opp [of_Z 1; of_Z 2; of_Z 3; of_Z 4; of_Z 5; of_Z 6]).
  { do 3 eexists. split; vm_compute; reflexivity. }
  destruct Hres as (pe & F & s' & Hres & Hstored). rewrite <- Hstored.
  exact (Hrun uncertain _ _ _ _ _ store1 _ _ _ eq_refl Hres).
Defined.

(** ** The further properties on the two-atom scenario *)

Import Variants.

Ltac in_events := vm_compute; repeat first [left; reflexivity | right].

Lemma transform_stress_needs_3x3_witness :
  rectangular stress 3 /\
  exists v, transform_stress stress = Ok v /\ length v = 6%nat.
Proof.
  assert (Hrect : rectangular stress 3).
  { intros row [<-|[<-|[<-|[]]]]; reflexivity. }
  split; [exact Hrect|].
  destruct (transform_stress_needs_3x3 stress 3 Hrect) as (Hbig & _).
  destruct Hbig
    as (xx & xy & xz & yx & yy & yz & zx & zy & zz & r0 & r1 & r2 & rows
        & _ & Hv).
  { split; cbn; lia. }
  eexists. split; [exact Hv | reflexivity].
Defined.

Lemma init_scalar_energy_correction_witness :
  exists o,
    LMPOTF_init gp0 (inl "B2"%string) (of_Z 5) (inl 14) (inl zero)
      true true true lit_0_005 lit_0_0025 None None
      "otf.flare" None (Some "L-BFGS-B"%string) (Some 50) false (Ok tt)
      = Ok o /\
    ntypes o = 1 /\ energy_correction o = [zero].
Proof.
  destruct (init_scalar_energy_correction gp0 (inl "B2"%string) (of_Z 5)
              (inl 14) zero true true true lit_0_005 lit_0_0025 None None
              "otf.flare"%string None (Some "L-BFGS-B"%string) (Some 50)
              false (Ok tt)) as (Hone & _).
  destruct (Hone eq_refl tt eq_refl) as (o & Hinit & Hn & Hc & _).
  exists o. repeat split; assumption.
Defined.

Lemma run_dft_attaches_labels_witness :
  exists pe F s',
    result_of (run_dft seq_sum uncertain [] [] [1; 1] 7 blank store1)
      = Ok (pe, F, s') /\
    dft_forces uncertain = Ok F /\ forces s' = F /\ energy s' = [pe].
Proof.
  assert (Hrun : exists pe F s',
             result_of (run_dft seq_sum uncertain [] [] [1; 1] 7 blank store1)
               = Ok (pe, F, s'))
    by (vm_compute; do 3 eexists; reflexivity).
  destruct Hrun as (pe & F & s' & Hrun). exists pe, F, s'.
  split; [exact Hrun|].
  destruct (run_dft_attaches_labels seq_sum uncertain [] [] [1; 1] 7 blank
              store1 pe F s' Hrun)
    as (e0 & corr & _ & _ & _ & _ & HF & Hf & He & _).
  split; [exact HF|]. split; [exact Hf | exact He].
Defined.

Lemma run_dft_commit_point_witness :
  oracle_completes oracle_fails (self store1) [1; 1] = false /\
  store_of (run_dft seq_sum oracle_fails [] [] [1; 1] 7 blank store1)
    = store1.
Proof.
  assert (Hfails : oracle_completes oracle_fails (self store1) [1; 1] = false)
    by (vm_compute; reflexivity).
  split; [exact Hfails|].
  destruct (run_dft_commit_point seq_sum oracle_fails [] [] [1; 1] 7 blank
              store1) as (_ & Hsame & _).
  apply Hsame. exact Hfails.
Defined.

Lemma model_saved_only_after_refit_witness :
  is_ok (result_of (step seq_sum seq_mean uncertain store1)) = true /\
  invokes_oracle (events_of (step seq_sum seq_mean uncertain store1)) = true /\
  model_file (store_of (step seq_sum seq_mean uncertain store1))
    = Some (mkCheckpoint "otf.flare" "LMPOTF" 0
              (sparse_gp
                 (self (store_of (step seq_sum seq_mean uncertain store1))))).
Proof.
  assert (Hok : is_ok (result_of (step seq_sum seq_mean uncertain store1))
                = true) by (vm_compute; reflexivity).
  assert (Ho : invokes_oracle
                 (events_of (step seq_sum seq_mean uncertain store1)) = true)
    by (vm_compute; reflexivity).
  split; [exact Hok|]. split; [exact Ho|].
  destruct (model_saved_only_after_refit seq_sum seq_mean uncertain store1)
    as (_ & _ & Hsaved).
  destruct (Hsaved Hok Ho) as (Hfile & _). exact Hfile.
Defined.

Lemma pair_coeff_reloads_saved_model_witness :
  In (LammpsCommand "pair_coeff * * otf.flare")
     (events_of (step seq_sum seq_mean uncertain store1)) /\
  dft_calls (self store1) <> 0 /\
  is_ok (gp_write_mapping_coefficients uncertain) = true.
Proof.
  assert (Hin : In (LammpsCommand "pair_coeff * * otf.flare")
                   (events_of (step seq_sum seq_mean uncertain store1)))
    by in_events.
  split; [exact Hin|].
  destruct (pair_coeff_reloads_saved_model seq_sum seq_mean uncertain store1
              _ Hin) as (_ & Hcalls & Hsave).
  split; assumption.
Defined.

Lemma refit_calls_in_order_witness :
  exists s n,
    In (AddRandomEnvironments s n)
       (events_of (step seq_sum seq_mean quiet store0)) /\
    dft_calls (self store0) = 0 /\ n = [16].
Proof.
  assert (Hin : exists s n,
             In (AddRandomEnvironments s n)
                (events_of (step seq_sum seq_mean quiet store0)))
    by (do 2 eexists; in_events).
  destruct Hin as (s & n & Hin). exists s, n. split; [exact Hin|].
  destruct (refit_calls_in_order seq_sum seq_mean quiet store0)
    as (_ & Hrandom & _).
  destruct (Hrandom s n Hin) as (Hzero & Hn & _). split; assumption.
Defined.

Lemma hyperparameters_change_only_by_optimizer_witness :
  exists k,
    In (HyperoptPredicate k)
       (events_of (step seq_sum seq_mean uncertain store1)) /\
    dft_calls (self store1) <> 0 /\
    is_ok (gp_update_matrices_QR uncertain) = true.
Proof.
  assert (Hin : exists k,
             In (HyperoptPredicate k)
                (events_of (step seq_sum seq_mean uncertain store1)))
    by (eexists; in_events).
  destruct Hin as (k & Hin). exists k. split; [exact Hin|].
  destruct (hyperparameters_change_only_by_optimizer seq_sum seq_mean
              uncertain store1) as (Hasked & _).
  exact (Hasked k Hin).
Defined.

Lemma step_changes_nothing_unless_counted_witness :
  is_ok (dft_potential_energy oracle_fails)
    && is_ok (dft_forces oracle_fails)
    && is_ok (dft_stress oracle_fails) = false /\
  store_of (step seq_sum seq_mean oracle_fails store1) = store1.
Proof.
  assert (Hfails : is_ok (dft_potential_energy oracle_fails)
                     && is_ok (dft_forces oracle_fails)
                     && is_ok (dft_stress oracle_fails) = false)
    by (vm_compute; reflexivity).
  split; [exact Hfails|].
  destruct (step_changes_nothing_unless_counted seq_sum seq_mean
              oracle_fails store1) as (_ & _ & Hsame).
  exact (Hsame Hfails).
Defined.

Lemma telemetry_needs_wandb_and_a_counted_call_witness :
  In (LammpsThermo "temp")
     (events_of (step seq_sum seq_mean quiet store_wandb)) /\
  wandb (self store_wandb) = true /\ dft_calls (self store_wandb) <> 0.
Proof.
  assert (Hin : In (LammpsThermo "temp")
                   (events_of (step seq_sum seq_mean quiet store_wandb)))
    by in_events.
  split; [exact Hin|].
  exact (telemetry_needs_wandb_and_a_counted_call seq_sum seq_mean quiet
           store_wandb _ Hin eq_refl).
Defined.

Lemma steady_step_reports_max_score_witness :
  dft_calls (self store1) <> 0 /\
  scores_at quiet store1 = Some [lit_0_001; lit_0_001] /\
  is_ok (result_of (step seq_sum seq_mean quiet store1)) = true /\
  In (Log (LogMaxUncertainty lit_0_001))
     (events_of (step seq_sum seq_mean quiet store1)).
Proof.
  assert (Hsteady : dft_calls (self store1) <> 0) by (cbn; lia).
  assert (Hscores : scores_at quiet store1 = Some [lit_0_001; lit_0_001])
    by (vm_compute; reflexivity).
  assert (Hok : is_ok (result_of (step seq_sum seq_mean quiet store1)) = true)
    by (vm_compute; reflexivity).
  repeat (split; [assumption|]).
  destruct (steady_step_reports_max_score seq_sum seq_mean quiet store1 _
              Hsteady Hscores) as (Hdec & Hreach).
  destruct (Hreach (Hdec Hok)) as (snap & m & _ & Hmax & _ & Hlog & _).
  vm_compute in Hmax. injection Hmax as <-. exact Hlog.
Defined.

Lemma wandb_log_carries_the_scores_witness :
  dft_calls (self store_wandb) <> 0 /\
  scores_at quiet store_wandb = Some [lit_0_001; lit_0_001] /\
  wandb (self store_wandb) = true /\
  is_ok (result_of (step seq_sum seq_mean quiet store_wandb)) = true /\
  exists metrics,
    In (WandbLog metrics 7)
       (events_of (step seq_sum seq_mean quiet store_wandb)) /\
    In ("uncertainties"%string, MHistogram [lit_0_001; lit_0_001]) metrics.
Proof.
  assert (Hsteady : dft_calls (self store_wandb) <> 0) by (cbn; lia).
  assert (Hscores : scores_at quiet store_wandb
                    = Some [lit_0_001; lit_0_001])
    by (vm_compute; reflexivity).
  assert (Hok : is_ok (result_of (step seq_sum seq_mean quiet store_wandb))
                = true) by (vm_compute; reflexivity).
  split; [exact Hsteady|]. split; [exact Hscores|].
  split; [reflexivity|]. split; [exact Hok|].
  destruct (wandb_log_carries_the_scores seq_sum seq_mean quiet store_wandb _
              Hsteady Hscores eq_refl Hok)
    as (snap & m & metrics & Hsnap & _ & Hlog & Hhist & _).
  injection Hsnap as <-. exists metrics. split; assumption.
Defined.

Lemma empty_scores_stop_the_step_witness :
  dft_calls (self store1) <> 0 /\
  scores_at no_scores store1 = Some [] /\
  is_ok (result_of (step seq_sum seq_mean no_scores store1)) = false /\
  store_of (step seq_sum seq_mean no_scores store1) = store1.
Proof.
  assert (Hsteady : dft_calls (self store1) <> 0) by (cbn; lia).
  assert (Hscores : scores_at no_scores store1 = Some [])
    by (vm_compute; reflexivity).
  split; [exact Hsteady|]. split; [exact Hscores|].
  destruct (empty_scores_stop_the_step seq_sum seq_mean no_scores store1
              Hsteady Hscores) as (Hraises & _ & Hsame & _).
  split; assumption.
Defined.

Lemma atom_count_mismatch_counts_without_training_witness :
  scores_at short_scores store1 = Some [lit_0_01] /\
  lmp_snapshot short_scores = Ok snapshot /\
  Z.to_nat (snap_natoms snapshot) <> length [lit_0_01] /\
  commits_call (events_of (step seq_sum seq_mean short_scores store1))
    = true /\
  result_of (step seq_sum seq_mean short_scores store1) = Raise IndexError /\
  dft_calls (self (store_of (step seq_sum seq_mean short_scores store1)))
    = dft_calls (self store1) + 1 /\
  training_structures
    (sparse_gp (self (store_of (step seq_sum seq_mean short_scores store1))))
    = training_structures (sparse_gp (self store1)).
Proof.
  assert (Hsteady : dft_calls (self store1) <> 0) by (cbn; lia).
  assert (Hscores : scores_at short_scores store1 = Some [lit_0_01])
    by (vm_compute; reflexivity).
  assert (Hlen : Z.to_nat (snap_natoms snapshot) <> length [lit_0_01])
    by (cbn; lia).
  assert (Hcommit : commits_call
                      (events_of (step seq_sum seq_mean short_scores store1))
                    = true) by (vm_compute; reflexivity).
  split; [exact Hscores|]. split; [reflexivity|]. split; [exact Hlen|].
  split; [exact Hcommit|].
  destruct (atom_count_mismatch_counts_without_training seq_sum seq_mean
              short_scores store1 _ snapshot Hsteady Hscores eq_refl Hlen)
    as (_ & Htrain & _ & _ & Hraise).
  destruct (Hraise Hcommit eq_refl) as (Hres & Hcalls).
  repeat split; assumption.
Defined.

Lemma query_adds_an_atom_when_add_le_call_witness :
  leb (dft_add_threshold (self store1)) (dft_call_threshold (self store1))
    = true /\
  exists s stds i sc,
    In (AddSpecificEnvironments s [0])
       (events_of (step seq_sum seq_mean uncertain store1)) /\
    scores_at uncertain store1 = Some stds /\
    In i [0] /\
    nth_error stds (Z.to_nat i) = Some sc /\
    gtb sc (dft_call_threshold (self store1)) = true.
Proof.
  assert (Hle : leb (dft_add_threshold (self store1))
                  (dft_call_threshold (self store1)) = true)
    by (vm_compute; reflexivity).
  assert (Hin : exists s,
             In (AddSpecificEnvironments s [0])
                (events_of (step seq_sum seq_mean uncertain store1)))
    by (eexists; in_events).
  split; [exact Hle|]. destruct Hin as (s & Hin).
  destruct (query_adds_an_atom_when_add_le_call seq_sum seq_mean
              uncertain store1 s [0] Hle Hin)
    as (stds & i & sc & Hscores & Hi & Hnth & Hgt).
  exists s, stds, i, sc. repeat split; assumption.
Defined.

Lemma n_added_counts_scores_above_add_threshold_witness :
  In (Log (LogQuantity "n_added" (MInt 1)))
     (events_of (step seq_sum seq_mean uncertain store1)) /\
  exists stds,
    scores_at uncertain store1 = Some stds /\
    MInt 1
      = MInt (Z.of_nat
                (count_true
                   (Numpy.gt_scalar stds (dft_add_threshold (self store1))))).
Proof.
  assert (Hin : In (Log (LogQuantity "n_added" (MInt 1)))
                   (events_of (step seq_sum seq_mean uncertain store1)))
    by in_events.
  split; [exact Hin|].
  exact (n_added_counts_scores_above_add_threshold seq_sum seq_mean
           uncertain store1 _ Hin).
Defined.

Lemma run_dft_rejects_unknown_type_witness :
  run_dft seq_sum uncertain [] [] [1; 2] 7 blank store1
    = (store1, [], Raise IndexError).
Proof.
  destruct (run_dft_rejects_unknown_type seq_sum uncertain [] [] [1; 2] 7
              blank store1) as (Hraise & _).
  apply (Hraise 2).
  - right. left. reflexivity.
  - right. vm_compute. reflexivity.
Defined.

Lemma query_checks_predictions_before_oracle_witness :
  invokes_oracle
    (events_of (query seq_sum seq_mean uncertain snapshot [] blank
                  [lit_0_01; lit_0_001] [] store1)) = true /\
  exists mean var,
    gp_predict_DTC uncertain = Ok (mean, var) /\
    (7 < length var)%nat /\ ((length var - 7) mod 3 = 0)%nat.
Proof.
  assert (Ho : invokes_oracle
                 (events_of (query seq_sum seq_mean uncertain snapshot []
                               blank [lit_0_01; lit_0_001] [] store1))
               = true) by (vm_compute; reflexivity).
  split; [exact Ho|].
  destruct (query_checks_predictions_before_oracle seq_sum seq_mean
              uncertain snapshot [] blank [lit_0_01; lit_0_001] [] store1 Ho)
    as (mean & var & Hp & _ & _ & Hlen & Hmod).
  exists mean, var. repeat split; assumption.
Defined.
